(* ===== verification/_CoqProject ===== *)
-Q . S2P
Prelude.v
PyValue.v
Codec.v
BytesRepr.v
StrRepr.v
Url.v
Sink.v
Adapter.v
OnMessage.v
Mock.v
Contract.v
Broker.v
MainTree.v
