(* ===== verification/Prelude.v ===== *)
(** * A verification development of the AMQP event-source plugin

    The repository is one Python module,
    [src/extensions/eda/plugins/event_source/amq.py], an ansible-rulebook
    event-source plugin.  Its coroutine [main(queue, args)] reads six
    connection arguments from a dict, formats an [amqp://] URL with an
    f-string, awaits [aio_pika.connect], enters [async with connection:],
    opens a channel, declares a queue named by [args["channel"]], registers
    the callback [on_message] with [no_ack=True] and then awaits
    [asyncio.Future()], a future nobody ever completes.  [on_message] prints
    two diagnostic lines ([%r] of the message and of its body), decodes the
    body with [bytes.decode(encoding)] and awaits [queue.put({"body": text})].
    When run as a script, a [MockQueue] whose [put] prints the event stands
    in for the host's [asyncio.Queue].

    ** Parts and files

    - [Prelude] (this file): the scope [amq_scope], the types shared by all
      files ([bytes] as [list Byte.byte], a Python [str] as a list of code
      points [pystr]), the hint database [amq], the tactics and the generic
      lemmas on lists and bytes the components share.
    - [PyValue]: the values [args] can hold ([pyval]), Python's [str()] on
      them ([py_str]), and [dict.get] with and without default ([dict_get]);
      [args] is a [gmap string pyval].
    - [Codec]: what [bytes.decode(encoding)] does.  [Utf8] is CPython's
      strict UTF-8 decoder, error positions and reasons included
      ([utf8_decode]), with the encoder used to state the round trips;
      [AsciiCodec] and [Latin1] the two other fast-path codecs;
      [Codec.builtin] CPython's encoding-name normalisation and alias table
      for these three.  Any other name goes to CPython's codec registry,
      the class [CodecRegistry] (its decoders are data of CPython, not of
      this program; a name it lacks is a [LookupError]); every section
      that decodes takes it as a [Context], and the concrete runs use
      [builtin_only].  This is library behaviour (not code of the
      repository), modelled from the spec's decoder contract and CPython.
    - [BytesRepr]: [repr(bytes)], which the second diagnostic [print] of
      [on_message] writes (CPython's [bytes.__repr__]).
    - [Url]: the f-string [f"amqp://{username}:{password}@{host}:{port}/"]
      ([amqp_url]) and how the client library reads the URL
      ([split_url], after yarl over [urllib.parse.urlsplit]): tab, CR
      and LF deleted, user and password percent-decoded ([pct_decode]),
      host lowercased, port an integer or a [ValueError] ([parse_port]).
    - [Sink]: the interface between the callback and the host, the class
      [EventSink] (a [put] with the law that it appends to the history of
      events, and [put_out], the lines [put] prints on the process's
      standard output), implemented by [asyncio.Queue] ([AsyncioQueue]),
      which prints nothing.  The standard output is one list of lines,
      [rs_stdout], shared by the prints of [on_message] and by [put].
    - [Adapter]: [on_message] ([on_message]) and [main] as a state machine
      over its await points ([pc], [rstate], [main_start], [step]):
      each input is what the environment does at the pending await
      (completes it, raises into it, cancels the task) or a delivery or a
      connection loss; [Reachable] is the set of states a run reaches.
    - [OnMessage]: what [on_message] does with a body, through the two
      library calls of lines 33-34.
    - [StrRepr]: [repr(str)] (CPython's [unicode_repr]), which
      [MockQueue.put] prints inside [str(event)], and its reading back.
      Whether a non-ASCII character is printed as itself comes from the
      Unicode database, the class [UnicodeDB]; every theorem holds for any
      database.
    - [Mock]: [MockQueue] (lines 59-64) as a second [EventSink], without
      state, whose [put] prints [str(event)] ([event_line]) on the shared
      standard output, and the [__main__] script (lines 66-77) as [main]
      run on it with the script's arguments ([script_run]): its output
      is [main]'s [rs_stdout], where [on_message] puts its two lines and
      then what [put] printed, the order of lines 32-34.
    - [Broker]: the broker behind [consume(on_message, no_ack=True)]
      (lines 51-52), after AMQP 0-9-1 as RabbitMQ implements it: the
      queue's ready and unacknowledged messages, the declared queue and
      the consumer with its [no_ack] flag ([bqueue]); and the closed
      system of the broker and [main] ([sys], [sys_step]): publications,
      deliveries of the head of the queue to [on_message], and [main]'s
      own inputs, after which the broker reacts to the calls [main] made
      ([b_sync]).
    - [Contract]: the spec's description of the Adapter Runner as a
      nondeterministic machine over a session, a consumer flag, an ended
      flag and the events ([Contract.astep]); [Refinement.abs] reads a
      state of [main] as a state of the contract.
    - [MainTree]: [main] once more, written statement by statement as an
      interaction tree ([main_tree]): one definition per await of lines
      50-53 ([channel_then], [declare_then], [consume_then],
      [wait_forever]), [async with connection:] as [close_with], an
      exception or a cancellation propagating through [guard], and
      [connect] (line 46) outside the [async with].  Its events
      ([mainE]) are the coroutines [main] awaits; the client library and
      the event loop are the handler [handle], which interprets them with
      [interp_state] against the inputs of [Adapter] ([wait] runs the
      deliveries and losses that arrive during an await).

    ** What the theorems show (claim ids in brackets)

    - The two models of [main] agree: interpreting the interaction tree
      on any inputs is, up to [eutt], the run of the step machine on
      the same inputs, a return in the same final state or a halt in the
      same waiting state (C3, an equivalence proved one statement of
      [main] at a time); the tree always returns once cancelled (C4);
      after a connection loss in the final wait it never returns and
      never consumes again without a cancellation (C5).
    - Invariants of [main] over [Reachable] states, by rule induction on
      a phase invariant ([AdapterProps.phase_inv]): the events in the sink
      are exactly the successful decodings of the delivered bodies, in
      delivery order (C1); the broker calls made so far are a prefix of
      connect, channel, declare, consume, followed by at most one close
      (C8); the connection is closed exactly once on every exit after it
      was acquired and never when connect did not succeed (C9); no
      delivery reaches the callback outside the wait (C17).
    - Refinement: every reachable state of [main] is, read by [abs], a
      state of the contract, each step of [main] being one contract step
      or none (C2); by the contract, with an encoding that takes
      CPython's fast path, the sink only ever holds text of Unicode scalar
      values (C10, a type invariant).
    - Termination and liveness: cancellation ends [main] anywhere and a
      finished run is inert (C11); the setup ends, waiting or finished,
      after as many resumed awaits as remain, whatever deliveries and
      losses come between (C14, by the measure [pending]); a lost
      connection leaves [main] waiting forever (C12).
    - Behaviour of [main] and [on_message]: deliveries are pushed in order
      and consumption survives a bad body (C15); the callback prints its
      two lines, then pushes (and [put] prints after them) or lets the
      decode error escape (C16); the default encoding is UTF-8 (C23); the
      password reaches nothing observable but the URL, a non-interference
      result on the projection [observed] (C21); the spec's scenario, for
      any arguments and any message that decodes: after the setup, one
      delivery pushes its event and prints the two lines and then [put]'s
      (C22).  The spec's scenarios on the script's arguments are also
      evaluated, as examples.
    - Where the code differs from the spec: no argument is validated (a
      missing [host] still reaches [connect] with the text [None] in the
      URL, C18; a missing [channel] declares a queue named [None], C19).
    - The system of broker and [main], by an invariant over its runs:
      with [no_ack=True] every message is delivered at most once and in
      publication order, nothing waits for an acknowledgement and nothing
      is redelivered (C6); the host's events are the decodings of the
      oldest published messages, in order (C7); after a connection loss
      no message is consumed again and every later one stays queued
      (C13); without a [channel] argument nothing published is ever
      consumed (C20).
    - The script: reading back what it prints gives exactly the events
      pushed, in order, whatever happens (C24); for the setup and any
      deliveries it prints, per message, the two diagnostics and then the
      event line (C25); [print(event)] reads back as the event (C26).
    - OnMessage, the decode and the print of lines 33-34 at the call
      site, proved from the library facts of [Codec] and [BytesRepr]
      (UTF-8 decoding inverts encoding on scalar values and is canonical,
      its errors name the first ill-formed sequence, [repr] escapes every
      non-printable byte): under a UTF-8 name a body that encodes a text
      is pushed as that text (C27) and the event determines the body
      (C28); with a fast-path encoding every pushed event holds scalar
      values (C29); an ill-formed body raises [UnicodeDecodeError] with the
      offsets of its first bad sequence and pushes nothing (C30); on ASCII
      bodies [utf-8] and [ascii] agree (C31); the encoding argument is
      case-insensitive (C32); the body line printed is printable ASCII
      (C33) and its length is bounded by the body's (C34).
    - Url: credentials without unescaped delimiters and without [%]
      round-trip through the URL, the host lowercased and the port an
      integer (C35); a password holding a [%XY] escape is never read back
      as itself (C36).

    ** Choices
    The models have no fuel: every definition is structural, the reading
    of a [repr] literal included (its escapes are matched as list
    patterns), and the interaction tree is interpreted by the library's
    [interp_state].  The one fuelled function, [MainTree.burn], only
    evaluates an interpreted tree for the example [main_tree_ping_cancel];
    100 steps are enough because each await adds a bounded number of
    silent steps and the run has seven awaits and inputs, and an
    exhausted fuel would give [None] and fail that proof, not pass it.
    The infinite wait is a state ([PcForever]) from which only
    cancellation leaves.  Only the UTF-8, ASCII and Latin-1 codecs are
    modelled in full; any other codec is CPython's registry, a parameter
    with the one law that a decoded text has code points up to
    U+10FFFF, so the theorems on scalar values assume a fast-path
    encoding.  [%r] of the message object is an
    opaque string supplied with the delivery (its text is the client
    library's).  The Unicode database is a parameter ([UnicodeDB]): its
    table is data of CPython, not of this program, and no theorem
    depends on it.

    ** Not modelled
    [logging.getLogger()] (line 37) has no effect on any state the plugin
    exposes.  The wire protocol of the broker client is the library's:
    the client is an environment that completes, fails or cancels each
    await, delivers messages and drops the connection; the broker behind
    it is the queue of [Broker], not RabbitMQ's implementation.  Callback tasks
    run atomically in delivery order: [on_message] never suspends before
    its last statement, and [put] on an unbounded [asyncio.Queue] or a
    [MockQueue] never suspends. *)

From stdpp Require Export base list strings gmap.
From Stdlib Require Export ZArith Lia.
From Stdlib Require Strings.Byte.

Declare Scope amq_scope.
Delimit Scope amq_scope with amq.
Open Scope amq_scope.
#[local] Open Scope Z_scope.

(** Python [bytes]: a list of octets. *)
Abbreviation bytes := (list Byte.byte).
(** Python [str]: a sequence of code points. *)
Abbreviation pystr := (list Z).

(** The code points of a text written with 8-bit characters: a literal
    of the source, or a line built from them. *)
Definition codes (s : string) : pystr :=
  map (fun a => Z.of_N (Ascii.N_of_ascii a)) (String.list_ascii_of_string s).

(** Numeric value of an octet. *)
Definition bval (b : Byte.byte) : Z := Z.of_N (Byte.to_N b).

(** The inclusive range test [lo <= x <= hi] of the CPython codecs. *)
Definition in_range (lo hi x : Z) : bool := Z.leb lo x && Z.leb x hi.

Create HintDb amq discriminated.
Create Rewrite HintDb amq_rw.

Lemma bval_range b : (0 <= bval b <= 255)%Z.
Proof. unfold bval. pose proof (Byte.to_N_bounded b). lia. Qed.

Lemma bval_inj b1 b2 : bval b1 = bval b2 -> b1 = b2.
Proof.
  unfold bval. intros H. apply N2Z.inj, (f_equal Byte.of_N) in H.
  rewrite !Byte.of_to_N in H. congruence.
Qed.

Lemma in_range_true lo hi x : in_range lo hi x = true <-> (lo <= x <= hi)%Z.
Proof. unfold in_range. rewrite andb_true_iff, !Z.leb_le. tauto. Qed.

(** The octet whose value is [z], for [0 <= z < 256]. *)
Definition byte_of_Z (z : Z) : Byte.byte :=
  match Byte.of_N (Z.to_N z) with Some b => b | None => Byte.x00 end.

Lemma bval_byte_of_Z z : (0 <= z <= 255)%Z -> bval (byte_of_Z z) = z.
Proof.
  intros Hz. unfold byte_of_Z, bval.
  destruct (Byte.of_N (Z.to_N z)) as [b|] eqn:E.
  - apply Byte.to_of_N in E. rewrite E. lia.
  - apply Byte.of_N_None_iff in E. lia.
Qed.

Lemma byte_of_Z_bval b : byte_of_Z (bval b) = b.
Proof. apply bval_inj. apply bval_byte_of_Z, bval_range. Qed.

(** Arithmetic with division and remainder by constants. *)
Ltac zify_divmod := Z.div_mod_to_equations; lia.

#[export] Hint Rewrite bval_byte_of_Z using zify_divmod : amq_rw.
#[export] Hint Rewrite byte_of_Z_bval : amq_rw.
#[export] Hint Resolve bval_range : amq.

Lemma byte_of_Z_eq z b : z = bval b -> byte_of_Z z = b.
Proof. intros ->. apply byte_of_Z_bval. Qed.

(** [a | b] is [a + b] when the bits of [b] lie below the lowest set bit
    of [a]: how an encoder's [0xC0 | (c >> 6)] is an addition. *)
Lemma lor_disjoint_add a b n :
  0 <= n -> a mod 2 ^ n = 0 -> 0 <= b < 2 ^ n -> Z.lor a b = a + b.
Proof.
  intros Hn Ha Hb. rewrite <- Z.add_lor_land.
  enough (Z.land a b = 0) as -> by lia.
  apply Z.bits_inj'. intros i Hi. rewrite Z.land_spec, Z.bits_0.
  destruct (Z.lt_ge_cases i n) as [Hlt|Hge].
  - assert (a = (a / 2 ^ n) * 2 ^ n) as ->.
    { pose proof (Z.div_mod a (2 ^ n)). pose proof (Z.pow_pos_nonneg 2 n). lia. }
    by rewrite Z.mul_pow2_bits_low.
  - rewrite <- (Z.mod_small b (2 ^ n)) by lia.
    rewrite (Z.mod_pow2_bits_high b n i) by lia. apply andb_false_r.
Qed.

(** [x & 0x3F] and [x >> k] as remainder and quotient. *)
Lemma land_63 x : Z.land x 0x3F = x mod 64.
Proof. change 0x3F with (Z.ones 6). by rewrite Z.land_ones. Qed.

Lemma shiftr_div x k : 0 <= k -> Z.shiftr x k = x / 2 ^ k.
Proof. apply Z.shiftr_div_pow2. Qed.

(** Counting the occurrences of an element satisfying a boolean test. *)
Definition count_if {A} (f : A -> bool) (l : list A) : nat :=
  length (filter (fun x => f x = true) l).

Lemma count_if_app {A} (f : A -> bool) l1 l2 :
  (count_if f (l1 ++ l2) = count_if f l1 + count_if f l2)%nat.
Proof. unfold count_if. by rewrite filter_app, length_app. Qed.

Lemma count_if_cons {A} (f : A -> bool) x l :
  (count_if f (x :: l) = (if f x then 1 else 0) + count_if f l)%nat.
Proof. unfold count_if. rewrite filter_cons. destruct (f x); simpl; done. Qed.

#[export] Hint Rewrite @count_if_app @count_if_cons : amq_rw.

Lemma omap_cons {A B} (f : A -> option B) x l :
  omap f (x :: l) = option_list (f x) ++ omap f l.
Proof. simpl. by destruct (f x). Qed.

(** Induction on a list by its length, for recursions that consume
    several elements at a time. *)
Lemma list_len_ind {A} (P : list A -> Prop) :
  (forall l, (forall l', (length l' < length l)%nat -> P l') -> P l) -> forall l, P l.
Proof.
  intros Hstep l. remember (length l) as n eqn:Hn. revert l Hn.
  induction n as [n IH] using lt_wf_ind. intros l ->.
  apply Hstep. intros l' Hl'. by apply (IH (length l')).
Qed.

Lemma length_string_of_list_ascii l :
  String.length (String.string_of_list_ascii l) = length l.
Proof. induction l as [|a l IH]; simpl; [done|]. by rewrite IH. Qed.

Lemma list_ascii_of_string_app s1 s2 :
  String.list_ascii_of_string (s1 ++ s2)%string
  = String.list_ascii_of_string s1 ++ String.list_ascii_of_string s2.
Proof. induction s1 as [|a s1 IH]; simpl; [done|]. by rewrite IH. Qed.

Lemma string_length_app s1 s2 :
  String.length (s1 ++ s2)%string = (String.length s1 + String.length s2)%nat.
Proof. induction s1 as [|a s1 IH]; simpl; [done|]. by rewrite IH. Qed.

#[export] Hint Rewrite list_ascii_of_string_app string_length_app : amq_rw.

(** [invc H]: invert and substitute, the usual step on a relation. *)
Ltac invc H := inversion H; subst; clear H.

(** Case on the range tests of the goal one at a time, discarding at once
    the branches whose hypotheses contradict each other. *)
Ltac split_tests_by tac :=
  repeat match goal with
  | |- context [Z.leb ?a ?b] =>
      destruct (Z.leb_spec a b); try (exfalso; tac)
  | |- context [Z.ltb ?a ?b] =>
      destruct (Z.ltb_spec a b); try (exfalso; tac)
  | |- context [Z.eqb ?a ?b] =>
      destruct (Z.eqb_spec a b); try (exfalso; tac)
  end; simpl; try done.

Ltac split_tests := split_tests_by zify_divmod.
