(* ===== verification/PyValue.v ===== *)
(** * Python values of the plugin's arguments

    [main(queue, args)] receives [args: dict[str, Any]] from the rulebook
    and reads it with [args.get(key)] and [args.get(key, default)]
    (amq.py, lines 39-44); the values then reach an f-string, i.e. Python's
    [str()].  This file holds the values an argument can have ([pyval]),
    [str()] on them ([py_str]), [dict.get] ([dict_get], [dict_get_or]),
    the record of the six values [main] reads ([Params], [read_args]) and
    the argument dict of the script entry point ([mock_args]). *)

From S2P Require Import Prelude.
From stdpp Require Import pretty.

Module PyValue.

(** The exceptions the model raises: the three of [bytes.decode], the
    [ValueError] of the URL's port, and the ones the client library
    raises into an await of [main]. *)
Inductive exn :=
| TypeError (msg : string)
| LookupError (msg : string)
| UnicodeDecodeError (codec : string) (start stop : nat) (reason : string)
| ValueError (msg : string)
| ClientError (name : string).

#[export] Instance exn_eq_dec : EqDecision exn.
Proof. solve_decision. Qed.

(** The values a YAML-sourced argument can hold, and [None]. *)
Inductive pyval :=
| PyNone
| PyBool (b : bool)
| PyInt (z : Z)
| PyStr (s : string).

#[export] Instance pyval_eq_dec : EqDecision pyval.
Proof. solve_decision. Defined.

(** [str(v)]: ["None"], ["True"]/["False"], the decimal digits with a
    leading [-] for a negative integer, and a string unchanged. *)
Definition py_str (v : pyval) : string :=
  match v with
  | PyNone => "None"
  | PyBool true => "True"
  | PyBool false => "False"
  | PyInt z => pretty z
  | PyStr s => s
  end.

(** [type(v).__name__], used in the [TypeError] messages. *)
Definition type_name (v : pyval) : string :=
  match v with
  | PyNone => "NoneType"
  | PyBool _ => "bool"
  | PyInt _ => "int"
  | PyStr _ => "str"
  end.

(** [args.get(key)]: the value, or [None] when the key is absent. *)
Definition dict_get (d : gmap string pyval) (k : string) : pyval :=
  match d !! k with Some v => v | None => PyNone end.

(** [args.get(key, default)]. *)
Definition dict_get_or (d : gmap string pyval) (k : string) (dflt : pyval) : pyval :=
  match d !! k with Some v => v | None => dflt end.

(** The six locals [main] reads from [args] before connecting. *)
Record Params := {
  channel_name : pyval;
  host : pyval;
  port : pyval;
  username : pyval;
  password : pyval;
  encoding : pyval
}.

(** Lines 39-44 of amq.py. *)
Definition read_args (args : gmap string pyval) : Params := {|
  channel_name := dict_get args "channel";
  host := dict_get args "host";
  port := dict_get args "port";
  username := dict_get args "username";
  password := dict_get args "password";
  encoding := dict_get_or args "encoding" (PyStr "utf-8")
|}.

(** The argument dict of the [__main__] block (lines 69-75); note that
    the port is the string ["9092"]. *)
Definition mock_args : gmap string pyval :=
  <["channel" := PyStr "hello"]> (<["host" := PyStr "localhost"]>
  (<["port" := PyStr "9092"]> (<["username" := PyStr "test"]>
  (<["password" := PyStr "test"]> ∅)))).

End PyValue.
