(* ===== verification/Codec.v ===== *)
(** * [bytes.decode(encoding)]: the decoder [on_message] calls

    [on_message] turns the body with [message.body.decode(encoding)]
    (amq.py, line 34).  The decoder is CPython's, not code of the
    repository: this file models it from the spec's decoder contract
    (section 4.2: the text, or a [DecodeError] naming the offending message)
    and from CPython's strict decoders, for the three codecs with a fast
    path in [PyUnicode_Decode]: UTF-8 ([Utf8]), ASCII ([AsciiCodec]) and
    Latin-1 ([Latin1]).  [Codec] resolves an encoding name the way
    CPython does for these three ([builtin]) and raises the exception
    [bytes.decode] raises; every other name goes to CPython's codec
    registry, the class [CodecRegistry], whose decoders are data of
    CPython and may return any Python [str] (lone surrogates included). *)

From S2P Require Import Prelude PyValue.
Import PyValue.

(** The result of a strict decoder: the text, or the first error with
    its start and end offsets and its reason. *)
Inductive reason :=
| InvalidStartByte
| InvalidContinuationByte
| UnexpectedEndOfData
| OrdinalNotInRange.

Inductive dres :=
| DOk (s : pystr)
| DErr (start stop : nat) (r : reason).

#[export] Instance reason_eq_dec : EqDecision reason.
Proof. solve_decision. Qed.
#[export] Instance dres_eq_dec : EqDecision dres.
Proof. solve_decision. Qed.

(** The [reason] field of CPython's [UnicodeDecodeError]. *)
Definition reason_msg (r : reason) : string :=
  match r with
  | InvalidStartByte => "invalid start byte"
  | InvalidContinuationByte => "invalid continuation byte"
  | UnexpectedEndOfData => "unexpected end of data"
  | OrdinalNotInRange => "ordinal not in range(128)"
  end.

(** Prepend a decoded code point to the rest of the decoding. *)
Definition cons_ok (c : Z) (r : dres) : dres :=
  match r with DOk s => DOk (c :: s) | e => e end.

Module Utf8.

(** [IS_CONTINUATION_BYTE]: [0x80 <= b <= 0xBF]. *)
Definition is_cont (b : Byte.byte) : bool := in_range 0x80 0xBF (bval b).

(** The check of the second byte of a three-byte sequence: a continuation
    byte, at least [0xA0] after [0xE0] (no overlong form) and below [0xA0]
    after [0xED] (no surrogate). *)
Definition second3_ok (c1 : Z) (b2 : Byte.byte) : bool :=
  is_cont b2 &&
  (if Z.eqb c1 0xE0 then Z.leb 0xA0 (bval b2)
   else if Z.eqb c1 0xED then Z.ltb (bval b2) 0xA0 else true).

(** The same for a four-byte sequence: at least [0x90] after [0xF0] (no
    overlong form), below [0x90] after [0xF4] (at most U+10FFFF). *)
Definition second4_ok (c1 : Z) (b2 : Byte.byte) : bool :=
  is_cont b2 &&
  (if Z.eqb c1 0xF0 then Z.leb 0x90 (bval b2)
   else if Z.eqb c1 0xF4 then Z.ltb (bval b2) 0x90 else true).

(** The code points, as [utf8_decode] in CPython's stringlib/codecs.h
    computes them. *)
Definition cp2 (c1 c2 : Z) : Z := c1 * 2^6 + c2 - (0xC0 * 2^6 + 0x80).
Definition cp3 (c1 c2 c3 : Z) : Z :=
  c1 * 2^12 + c2 * 2^6 + c3 - (0xE0 * 2^12 + 0x80 * 2^6 + 0x80).
Definition cp4 (c1 c2 c3 c4 : Z) : Z :=
  c1 * 2^18 + c2 * 2^12 + c3 * 2^6 + c4
  - (0xF0 * 2^18 + 0x80 * 2^12 + 0x80 * 2^6 + 0x80).

(** The strict decoder from offset [pos].  A lead byte below [0xC2] or
    above [0xF4] is an invalid start byte (end [pos+1]); the [k]-th byte
    of a sequence failing its check is an invalid continuation byte (end
    [pos+k-1]); a sequence cut by the end of the input whose bytes so far
    pass their checks is an unexpected end of data (end = the length). *)
Fixpoint utf8_go (pos : nat) (bs : bytes) : dres :=
  match bs with
  | [] => DOk []
  | b1 :: r1 =>
    let c1 := bval b1 in
    if Z.ltb c1 0x80 then cons_ok c1 (utf8_go (S pos) r1)
    else if Z.ltb c1 0xC2 then DErr pos (S pos) InvalidStartByte
    else if Z.ltb c1 0xE0 then
      match r1 with
      | [] => DErr pos (S pos) UnexpectedEndOfData
      | b2 :: r2 =>
        if is_cont b2 then cons_ok (cp2 c1 (bval b2)) (utf8_go (pos + 2) r2)
        else DErr pos (S pos) InvalidContinuationByte
      end
    else if Z.ltb c1 0xF0 then
      match r1 with
      | [] => DErr pos (S pos) UnexpectedEndOfData
      | b2 :: r2 =>
        if negb (second3_ok c1 b2) then DErr pos (S pos) InvalidContinuationByte
        else match r2 with
        | [] => DErr pos (pos + 2) UnexpectedEndOfData
        | b3 :: r3 =>
          if is_cont b3
          then cons_ok (cp3 c1 (bval b2) (bval b3)) (utf8_go (pos + 3) r3)
          else DErr pos (pos + 2) InvalidContinuationByte
        end
      end
    else if Z.ltb c1 0xF5 then
      match r1 with
      | [] => DErr pos (S pos) UnexpectedEndOfData
      | b2 :: r2 =>
        if negb (second4_ok c1 b2) then DErr pos (S pos) InvalidContinuationByte
        else match r2 with
        | [] => DErr pos (pos + 2) UnexpectedEndOfData
        | b3 :: r3 =>
          if negb (is_cont b3) then DErr pos (pos + 2) InvalidContinuationByte
          else match r3 with
          | [] => DErr pos (pos + 3) UnexpectedEndOfData
          | b4 :: r4 =>
            if is_cont b4
            then cons_ok (cp4 c1 (bval b2) (bval b3) (bval b4)) (utf8_go (pos + 4) r4)
            else DErr pos (pos + 3) InvalidContinuationByte
          end
        end
      end
    else DErr pos (S pos) InvalidStartByte
  end.

Definition utf8_decode (bs : bytes) : dres := utf8_go 0 bs.

(** A Unicode scalar value: a code point that is not a surrogate. *)
Definition is_scalar (c : Z) : bool :=
  in_range 0 0x10FFFF c && negb (in_range 0xD800 0xDFFF c).

(** [str.encode("utf-8")] of one code point, with the bit operations of
    CPython's encoder; a surrogate or a value out of range is refused. *)
Definition encode_char (c : Z) : option bytes :=
  if negb (is_scalar c) then None
  else if Z.ltb c 0x80 then Some [byte_of_Z c]
  else if Z.ltb c 0x800 then
    Some [byte_of_Z (Z.lor 0xC0 (Z.shiftr c 6));
          byte_of_Z (Z.lor 0x80 (Z.land c 0x3F))]
  else if Z.ltb c 0x10000 then
    Some [byte_of_Z (Z.lor 0xE0 (Z.shiftr c 12));
          byte_of_Z (Z.lor 0x80 (Z.land (Z.shiftr c 6) 0x3F));
          byte_of_Z (Z.lor 0x80 (Z.land c 0x3F))]
  else
    Some [byte_of_Z (Z.lor 0xF0 (Z.shiftr c 18));
          byte_of_Z (Z.lor 0x80 (Z.land (Z.shiftr c 12) 0x3F));
          byte_of_Z (Z.lor 0x80 (Z.land (Z.shiftr c 6) 0x3F));
          byte_of_Z (Z.lor 0x80 (Z.land c 0x3F))].

Fixpoint utf8_encode (s : pystr) : option bytes :=
  match s with
  | [] => Some []
  | c :: s' =>
    match encode_char c, utf8_encode s' with
    | Some b, Some bs => Some (b ++ bs)
    | _, _ => None
    end
  end.

End Utf8.

Module AsciiCodec.

(** The strict ASCII decoder: a byte from [0x80] on is refused. *)
Fixpoint ascii_go (pos : nat) (bs : bytes) : dres :=
  match bs with
  | [] => DOk []
  | b :: r =>
    if Z.ltb (bval b) 0x80 then cons_ok (bval b) (ascii_go (S pos) r)
    else DErr pos (S pos) OrdinalNotInRange
  end.

Definition ascii_decode (bs : bytes) : dres := ascii_go 0 bs.

End AsciiCodec.

Module Latin1.

(** Latin-1 maps every byte to the code point of the same value. *)
Definition latin1_decode (bs : bytes) : dres := DOk (map bval bs).

End Latin1.

Module Codec.

Inductive codec := UTF8 | ASCII | LATIN1.

#[export] Instance codec_eq_dec : EqDecision codec.
Proof. solve_decision. Qed.

(** The name CPython's error messages give the codec. *)
Definition codec_name (c : codec) : string :=
  match c with UTF8 => "utf-8" | ASCII => "ascii" | LATIN1 => "latin-1" end.

Definition is_alnum_or_dot (a : Ascii.ascii) : bool :=
  let n := Ascii.nat_of_ascii a in
  (Nat.leb 48 n && Nat.leb n 57) || (Nat.leb 65 n && Nat.leb n 90)
  || (Nat.leb 97 n && Nat.leb n 122) || Nat.eqb n 46.

Definition to_lower (a : Ascii.ascii) : Ascii.ascii :=
  let n := Ascii.nat_of_ascii a in
  if Nat.leb 65 n && Nat.leb n 90 then Ascii.ascii_of_nat (n + 32) else a.

(** [_Py_normalize_encoding]: letters lowered, every run of characters
    other than letters, digits and [.] becomes one [_], dropped at both
    ends.  [punct] records a pending run, [started] that output began. *)
Fixpoint normalize_go (punct started : bool) (s : string) : string :=
  match s with
  | EmptyString => EmptyString
  | String a s' =>
    if is_alnum_or_dot a then
      (if punct && started then String (Ascii.ascii_of_nat 95) else fun x => x)
        (String (to_lower a) (normalize_go false true s'))
    else normalize_go true started s'
  end.

Definition normalize_encoding (s : string) : string := normalize_go false false s.

(** The module names and aliases of [encodings/aliases.py] for the three
    modelled codecs, after normalisation. *)
Definition utf8_names : list string :=
  ["utf_8"; "utf8"; "u8"; "utf"; "utf8_ucs2"; "utf8_ucs4"; "cp65001"].
Definition ascii_names : list string :=
  ["ascii"; "646"; "ansi_x3.4_1968"; "ansi_x3_4_1968"; "ansi_x3.4_1986";
   "cp367"; "csascii"; "ibm367"; "iso646_us"; "iso_646.irv_1991";
   "iso_ir_6"; "us"; "us_ascii"].
Definition latin1_names : list string :=
  ["latin_1"; "8859"; "cp819"; "csisolatin1"; "ibm819"; "iso8859";
   "iso8859_1"; "iso_8859_1"; "iso_8859_1_1987"; "iso_ir_100"; "l1";
   "latin"; "latin1"].

Definition run_codec (c : codec) (bs : bytes) : dres :=
  match c with
  | UTF8 => Utf8.utf8_decode bs
  | ASCII => AsciiCodec.ascii_decode bs
  | LATIN1 => Latin1.latin1_decode bs
  end.

(** The fast-path codec a name resolves to: [encodings.search_function]
    looks the normalised name up in the alias table, then the same name
    with every [.] replaced by [_]. *)
Definition builtin (name : string) : option codec :=
  let find n :=
    if bool_decide (n ∈ utf8_names) then Some UTF8
    else if bool_decide (n ∈ ascii_names) then Some ASCII
    else if bool_decide (n ∈ latin1_names) then Some LATIN1
    else None in
  let n := normalize_encoding name in
  match find n with
  | Some c => Some c
  | None =>
    find (String.string_of_list_ascii
            (map (fun a => if Ascii.eqb a (Ascii.ascii_of_nat 46) then Ascii.ascii_of_nat 95 else a)
                 (String.list_ascii_of_string n)))
  end.

(** CPython's other codecs (the rest of the [encodings] package and
    whatever is registered at run time), by normalised name: data of
    CPython, not of this program.  A decoder returns a Python [str],
    whose code points are at most U+10FFFF (surrogates included). *)
Class CodecRegistry := {
  other_codec : string -> option (bytes -> exn + pystr);
  other_codec_range n d bs s :
    other_codec n = Some d -> d bs = inr s -> Forall (fun c => 0 <= c <= 0x10FFFF)%Z s
}.

(** A CPython with no codec beyond the three built-in ones. *)
#[refine] Definition builtin_only : CodecRegistry := {| other_codec _ := None |}.
Proof. discriminate. Defined.

Section Decode.
Context `{CodecRegistry}.

(** [bytes.decode(encoding)] with the strict error handler: a non-[str]
    encoding is a [TypeError]; UTF-8, ASCII and Latin-1 take CPython's
    fast path; any other name goes to the codec registry, and a name it
    does not know is a [LookupError]; an ill-formed input to a built-in
    codec is a [UnicodeDecodeError]. *)
Definition bytes_decode (enc : pyval) (bs : bytes) : exn + pystr :=
  match enc with
  | PyStr name =>
    match builtin name with
    | Some c =>
      match run_codec c bs with
      | DOk s => inr s
      | DErr a b r => inl (UnicodeDecodeError (codec_name c) a b (reason_msg r))
      end
    | None =>
      match other_codec (normalize_encoding name) with
      | Some d => d bs
      | None => inl (LookupError ("unknown encoding: " ++ name))
      end
    end
  | v => inl (TypeError ("decode() argument 'encoding' must be str, not "
                         ++ type_name v))
  end.

End Decode.

End Codec.

(** ** Properties of the UTF-8 decoder *)
Module Utf8Facts.
Import Utf8.
#[local] Open Scope Z_scope.

Lemma cons_ok_DOk c r s : cons_ok c r = DOk s -> exists s', r = DOk s' /\ s = c :: s'.
Proof. destruct r; simpl; intros H; [injection H as <-; eauto | discriminate]. Qed.

Lemma cons_ok_DErr c r a b e : cons_ok c r = DErr a b e -> r = DErr a b e.
Proof. by destruct r. Qed.

(** The bit operations of [encode_char] as quotients and remainders. *)
Lemma encode_char_arith c :
  is_scalar c = true ->
  encode_char c = Some (
    if c <? 0x80 then [byte_of_Z c]
    else if c <? 0x800 then [byte_of_Z (0xC0 + c / 64); byte_of_Z (0x80 + c mod 64)]
    else if c <? 0x10000 then
      [byte_of_Z (0xE0 + c / 4096); byte_of_Z (0x80 + (c / 64) mod 64);
       byte_of_Z (0x80 + c mod 64)]
    else
      [byte_of_Z (0xF0 + c / 262144); byte_of_Z (0x80 + (c / 4096) mod 64);
       byte_of_Z (0x80 + (c / 64) mod 64); byte_of_Z (0x80 + c mod 64)]).
Proof.
  intros Hs. unfold encode_char. rewrite Hs. simpl.
  unfold is_scalar, in_range in Hs. apply andb_true_iff in Hs as [Hs _].
  apply andb_true_iff in Hs as [H0 H1]. apply Z.leb_le in H0, H1.
  rewrite !land_63, !shiftr_div by lia.
  destruct (Z.ltb_spec c 0x80); [done|].
  assert (forall k x, 0 <= x < 2 ^ 6 -> Z.lor (k * 2 ^ 6) x = k * 2 ^ 6 + x) as Hl6
    by (intros; apply (lor_disjoint_add _ _ 6); [lia| apply Z_mod_mult | lia]).
  change 0x80 with (2 * 2 ^ 6). rewrite !Hl6 by zify_divmod.
  destruct (Z.ltb_spec c 0x800).
  - change 0xC0 with (3 * 2 ^ 6). rewrite Hl6 by (simpl; zify_divmod). done.
  - destruct (Z.ltb_spec c 0x10000).
    + rewrite (lor_disjoint_add 0xE0 _ 4) by (simpl; zify_divmod). done.
    + rewrite (lor_disjoint_add 0xF0 _ 3) by (simpl; zify_divmod). done.
Qed.

Lemma is_cont_iff b : is_cont b = true <-> 0x80 <= bval b <= 0xBF.
Proof. apply in_range_true. Qed.

(** Each well-formed sequence the decoder accepts is the encoding of the
    code point it computes. *)
Lemma encode_cp1 b : bval b < 0x80 -> encode_char (bval b) = Some [b].
Proof.
  intros H. rewrite encode_char_arith.
  - destruct (Z.ltb_spec (bval b) 0x80); [|lia]. by rewrite byte_of_Z_bval.
  - pose proof (bval_range b). unfold is_scalar, in_range. split_tests.
Qed.

Lemma encode_cp2 b1 b2 :
  0xC2 <= bval b1 < 0xE0 -> is_cont b2 = true ->
  encode_char (cp2 (bval b1) (bval b2)) = Some [b1; b2].
Proof.
  intros H1 H2. apply is_cont_iff in H2. unfold cp2.
  rewrite encode_char_arith by (unfold is_scalar, in_range; split_tests).
  split_tests. do 3 f_equal; apply byte_of_Z_eq; zify_divmod.
Qed.
Lemma second3_ok_iff c1 b2 :
  second3_ok c1 b2 = true <->
  0x80 <= bval b2 <= 0xBF /\ (c1 = 0xE0 -> 0xA0 <= bval b2) /\
  (c1 = 0xED -> bval b2 < 0xA0).
Proof.
  unfold second3_ok. rewrite andb_true_iff, is_cont_iff.
  split_tests; intuition (try lia; try congruence).
Qed.

Lemma second4_ok_iff c1 b2 :
  second4_ok c1 b2 = true <->
  0x80 <= bval b2 <= 0xBF /\ (c1 = 0xF0 -> 0x90 <= bval b2) /\
  (c1 = 0xF4 -> bval b2 < 0x90).
Proof.
  unfold second4_ok. rewrite andb_true_iff, is_cont_iff.
  split_tests; intuition (try lia; try congruence).
Qed.

Lemma encode_cp3 b1 b2 b3 :
  0xE0 <= bval b1 < 0xF0 -> second3_ok (bval b1) b2 = true -> is_cont b3 = true ->
  encode_char (cp3 (bval b1) (bval b2) (bval b3)) = Some [b1; b2; b3].
Proof.
  intros H1 H2 H3. apply second3_ok_iff in H2 as (H2 & HE0 & HED).
  apply is_cont_iff in H3. unfold cp3.
  assert (bval b1 = 0xE0 \/ bval b1 = 0xED \/ (bval b1 <> 0xE0 /\ bval b1 <> 0xED))
    as Hc by lia.
  rewrite encode_char_arith
    by (unfold is_scalar, in_range; destruct Hc as [Hc|[Hc|Hc]];
        try specialize (HE0 Hc); try specialize (HED Hc); split_tests).
  destruct Hc as [Hc|[Hc|Hc]]; try specialize (HE0 Hc); try specialize (HED Hc);
    split_tests; do 4 f_equal; apply byte_of_Z_eq; zify_divmod.
Qed.

Lemma encode_cp4 b1 b2 b3 b4 :
  0xF0 <= bval b1 < 0xF5 -> second4_ok (bval b1) b2 = true ->
  is_cont b3 = true -> is_cont b4 = true ->
  encode_char (cp4 (bval b1) (bval b2) (bval b3) (bval b4)) = Some [b1; b2; b3; b4].
Proof.
  intros H1 H2 H3 H4. apply second4_ok_iff in H2 as (H2 & HF0 & HF4).
  apply is_cont_iff in H3, H4. unfold cp4.
  assert (bval b1 = 0xF0 \/ bval b1 = 0xF4 \/ (bval b1 <> 0xF0 /\ bval b1 <> 0xF4))
    as Hc by lia.
  rewrite encode_char_arith
    by (unfold is_scalar, in_range; destruct Hc as [Hc|[Hc|Hc]];
        try specialize (HF0 Hc); try specialize (HF4 Hc); split_tests).
  destruct Hc as [Hc|[Hc|Hc]]; try specialize (HF0 Hc); try specialize (HF4 Hc);
    split_tests; do 5 f_equal; apply byte_of_Z_eq; zify_divmod.
Qed.

Lemma encode_char_scalar c chunk : encode_char c = Some chunk -> is_scalar c = true.
Proof. unfold encode_char. by destruct (is_scalar c). Qed.

(** The decoder on the bytes of a one- to four-byte sequence, written
    with the digits of the code point in base 64. *)
Lemma utf8_go_enc1 c pos rest :
  0 <= c < 0x80 -> utf8_go pos ([byte_of_Z c] ++ rest) = cons_ok c (utf8_go (pos + 1) rest).
Proof.
  intros. simpl. rewrite bval_byte_of_Z, Nat.add_1_r by lia. by split_tests_by lia.
Qed.

Lemma utf8_go_enc2 q r pos rest :
  2 <= q < 32 -> 0 <= r < 64 ->
  utf8_go pos ([byte_of_Z (0xC0 + q); byte_of_Z (0x80 + r)] ++ rest)
  = cons_ok (64 * q + r) (utf8_go (pos + 2) rest).
Proof.
  intros. simpl. unfold is_cont, in_range, cp2.
  rewrite !bval_byte_of_Z by lia. split_tests_by lia; f_equal; lia.
Qed.

Lemma utf8_go_enc3 q r1 r0 pos rest :
  0 <= q < 16 -> 0 <= r1 < 64 -> 0 <= r0 < 64 ->
  0x800 <= 4096 * q + 64 * r1 + r0 -> ~ (0xD800 <= 4096 * q + 64 * r1 + r0 <= 0xDFFF) ->
  utf8_go pos ([byte_of_Z (0xE0 + q); byte_of_Z (0x80 + r1); byte_of_Z (0x80 + r0)] ++ rest)
  = cons_ok (4096 * q + 64 * r1 + r0) (utf8_go (pos + 3) rest).
Proof.
  intros. simpl. unfold second3_ok, is_cont, in_range, cp3.
  rewrite !bval_byte_of_Z by lia. split_tests_by lia; f_equal; lia.
Qed.

Lemma utf8_go_enc4 q r2 r1 r0 pos rest :
  0 <= q < 8 -> 0 <= r2 < 64 -> 0 <= r1 < 64 -> 0 <= r0 < 64 ->
  0x10000 <= 262144 * q + 4096 * r2 + 64 * r1 + r0 <= 0x10FFFF ->
  utf8_go pos ([byte_of_Z (0xF0 + q); byte_of_Z (0x80 + r2); byte_of_Z (0x80 + r1);
                byte_of_Z (0x80 + r0)] ++ rest)
  = cons_ok (262144 * q + 4096 * r2 + 64 * r1 + r0) (utf8_go (pos + 4) rest).
Proof.
  intros. simpl. unfold second4_ok, is_cont, in_range, cp4.
  rewrite !bval_byte_of_Z by lia. split_tests_by lia; f_equal; lia.
Qed.

(** The decoder reads back the encoding of a scalar value, whatever
    follows it: the encodings are prefix-free. *)
Lemma utf8_go_encode_char c chunk pos rest :
  encode_char c = Some chunk ->
  utf8_go pos (chunk ++ rest) = cons_ok c (utf8_go (pos + length chunk) rest).
Proof.
  intros H. pose proof (encode_char_scalar _ _ H) as Hs.
  rewrite encode_char_arith in H by done. injection H as <-.
  unfold is_scalar in Hs. apply andb_true_iff in Hs as [Hr Hn].
  apply in_range_true in Hr. apply negb_true_iff in Hn.
  assert (~ (0xD800 <= c <= 0xDFFF)) as Hsur
    by (rewrite <- in_range_true; congruence). clear Hn.
  destruct (Z.ltb_spec c 0x80);
    [| destruct (Z.ltb_spec c 0x800); [| destruct (Z.ltb_spec c 0x10000)]].
  - apply utf8_go_enc1. lia.
  - assert (c = 64 * (c / 64) + c mod 64) as Hc by zify_divmod.
    rewrite Hc at 3. apply utf8_go_enc2; zify_divmod.
  - assert (c = 4096 * (c / 4096) + 64 * ((c / 64) mod 64) + c mod 64) as Hc
      by zify_divmod.
    rewrite Hc at 4. apply utf8_go_enc3; zify_divmod.
  - assert (c = 262144 * (c / 262144) + 4096 * ((c / 4096) mod 64)
                + 64 * ((c / 64) mod 64) + c mod 64) as Hc by zify_divmod.
    rewrite Hc at 5. apply utf8_go_enc4; zify_divmod.
Qed.

(** One step of the decoder: the input starts with the encoding of a
    scalar value, or the decoder stops at once with an error whose end
    lies within the input. *)
Ltac first_err := right; do 2 eexists; split; [reflexivity | simpl; lia].

Lemma utf8_go_first pos b bs :
  (exists c chunk rest, b :: bs = chunk ++ rest /\ encode_char c = Some chunk)
  \/ (exists e r, utf8_go pos (b :: bs) = DErr pos e r
                  /\ (pos < e <= pos + length (b :: bs))%nat).
Proof.
  cbn [utf8_go].
  destruct (Z.ltb_spec (bval b) 0x80).
  { left. exists (bval b), [b], bs. split; [done|]. by apply encode_cp1. }
  destruct (Z.ltb_spec (bval b) 0xC2); [first_err|].
  destruct (Z.ltb_spec (bval b) 0xE0).
  { destruct bs as [|b2 bs]; [first_err|].
    destruct (is_cont b2) eqn:E2; [|first_err].
    left. exists (cp2 (bval b) (bval b2)), [b; b2], bs.
    split; [done|]. apply encode_cp2; auto with lia. }
  destruct (Z.ltb_spec (bval b) 0xF0).
  { destruct bs as [|b2 [|b3 bs]]; [first_err| |];
      destruct (second3_ok (bval b) b2) eqn:E2; simpl; try first_err.
    destruct (is_cont b3) eqn:E3; [|first_err].
    left. exists (cp3 (bval b) (bval b2) (bval b3)), [b; b2; b3], bs.
    split; [done|]. apply encode_cp3; auto with lia. }
  destruct (Z.ltb_spec (bval b) 0xF5); [|first_err].
  destruct bs as [|b2 [|b3 [|b4 bs]]]; [first_err| | |];
    destruct (second4_ok (bval b) b2) eqn:E2; simpl; try first_err;
    destruct (is_cont b3) eqn:E3; simpl; try first_err.
  destruct (is_cont b4) eqn:E4; [|first_err].
  left. exists (cp4 (bval b) (bval b2) (bval b3) (bval b4)), [b; b2; b3; b4], bs.
  split; [done|]. apply encode_cp4; auto with lia.
Qed.

Lemma encode_char_length c chunk :
  encode_char c = Some chunk -> (1 <= length chunk <= 4)%nat.
Proof.
  intros H. pose proof (encode_char_scalar _ _ H).
  rewrite encode_char_arith in H by done. injection H as <-.
  repeat case_match; simpl; lia.
Qed.

Lemma utf8_encode_scalar s bs :
  utf8_encode s = Some bs -> Forall (fun c => is_scalar c = true) s.
Proof.
  revert bs. induction s as [|c s IH]; intros bs H; constructor; simpl in H;
    destruct (encode_char c) eqn:E1, (utf8_encode s) eqn:E2; try discriminate.
  - by eapply encode_char_scalar.
  - by eapply IH.
Qed.

Lemma utf8_go_encode pos s bs :
  utf8_encode s = Some bs -> utf8_go pos bs = DOk s.
Proof.
  revert pos bs. induction s as [|c s IH]; intros pos bs H; simpl in H.
  - by injection H as <-.
  - destruct (encode_char c) as [chunk|] eqn:E1, (utf8_encode s) as [bs'|] eqn:E2;
      try discriminate. injection H as <-.
    rewrite (utf8_go_encode_char _ _ _ _ E1), (IH _ bs') by done. done.
Qed.

Lemma utf8_go_canonical pos bs s :
  utf8_go pos bs = DOk s -> utf8_encode s = Some bs.
Proof.
  revert pos s. induction bs as [bs IH] using list_len_ind. intros pos s H.
  destruct bs as [|b bs]; [by injection H as <-|].
  destruct (utf8_go_first pos b bs) as [(c & chunk & rest & Heq & Henc)|(e & r & He & _)];
    [|congruence].
  rewrite Heq in H |- *. pose proof (encode_char_length _ _ Henc).
  rewrite (utf8_go_encode_char _ _ _ _ Henc) in H.
  apply cons_ok_DOk in H as (s' & Hs' & ->). simpl.
  assert (length rest < length (b :: bs))%nat as Hlt
    by (apply (f_equal length) in Heq; rewrite length_app in Heq; lia).
  by rewrite Henc, (IH rest Hlt _ _ Hs').
Qed.

Lemma utf8_go_error pos bs a e r :
  utf8_go pos bs = DErr a e r ->
  (pos <= a < e /\ e <= pos + length bs)%nat /\
  exists s, utf8_go pos (take (a - pos) bs) = DOk s.
Proof.
  revert pos. induction bs as [bs IH] using list_len_ind. intros pos H.
  destruct bs as [|b bs]; [discriminate|].
  destruct (utf8_go_first pos b bs) as [(c & chunk & rest & Heq & Henc)|(e' & r' & He & Hb)].
  - rewrite Heq in H |- *. pose proof (encode_char_length _ _ Henc) as Hlen.
    rewrite (utf8_go_encode_char _ _ _ _ Henc) in H. apply cons_ok_DErr in H.
    apply (f_equal length) in Heq. rewrite length_app in Heq.
    destruct (IH rest ltac:(lia) _ H) as [Hr (s' & Hs')].
    rewrite length_app. split; [lia|].
    rewrite take_app_ge by lia.
    rewrite (utf8_go_encode_char _ _ _ _ Henc).
    replace (a - pos - length chunk)%nat with (a - (pos + length chunk))%nat by lia.
    rewrite Hs'. eauto.
  - rewrite He in H. injection H as <- <- <-.
    split; [lia|]. rewrite Nat.sub_diag, take_0. eauto.
Qed.

Lemma utf8_go_ascii pos bs :
  Forall (fun b => bval b < 0x80) bs -> utf8_go pos bs = DOk (map bval bs).
Proof.
  revert pos. induction bs as [|b bs IH]; intros pos H; [done|].
  inversion_clear H as [|? ? Hb Hbs]. simpl.
  destruct (Z.ltb_spec (bval b) 0x80); [|lia]. by rewrite IH.
Qed.

Lemma ascii_go_ascii pos bs :
  Forall (fun b => bval b < 0x80) bs -> AsciiCodec.ascii_go pos bs = DOk (map bval bs).
Proof.
  revert pos. induction bs as [|b bs IH]; intros pos H; [done|].
  inversion_clear H as [|? ? Hb Hbs]. simpl.
  destruct (Z.ltb_spec (bval b) 0x80); [|lia]. by rewrite IH.
Qed.

Lemma scalar_byte b : bval b < 0x80 -> is_scalar (bval b) = true.
Proof.
  intros Hb. pose proof (bval_range b). unfold is_scalar.
  apply andb_true_iff. rewrite negb_true_iff, in_range_true.
  split; [lia|]. unfold in_range. destruct (Z.leb_spec 0xD800 (bval b)); [lia|done].
Qed.

Lemma ascii_go_scalar pos bs s :
  AsciiCodec.ascii_go pos bs = DOk s -> Forall (fun c => is_scalar c = true) s.
Proof.
  revert pos s. induction bs as [|b bs IH]; intros pos s H; simpl in H; [by invc H|].
  destruct (Z.ltb_spec (bval b) 0x80) as [Hb|]; [|discriminate].
  apply cons_ok_DOk in H as (s' & Hr & ->). constructor; [by apply scalar_byte | eauto].
Qed.

Lemma latin1_scalar bs : Forall (fun c => is_scalar c = true) (map bval bs).
Proof.
  apply Forall_map, Forall_forall. intros b _. pose proof (bval_range b).
  unfold is_scalar. apply andb_true_iff. rewrite negb_true_iff, in_range_true.
  split; [lia|]. unfold in_range. destruct (Z.leb_spec 0xD800 (bval b)); [lia|done].
Qed.
End Utf8Facts.

(** ** The decoder's contract *)
Module CodecProps.
Import Utf8 Utf8Facts Codec.
#[local] Open Scope Z_scope.

(** decoding inverts encoding: the UTF-8 encoding of a string of
    scalar values decodes to that string. *)
Theorem utf8_decode_encode s bs :
  utf8_encode s = Some bs -> utf8_decode bs = DOk s.
Proof. apply utf8_go_encode. Qed.

(** decoding is canonical: a successful decoding re-encodes to the
    very bytes decoded, so no two byte strings decode to the same text
    (no overlong forms, no alternative encodings). *)
Theorem utf8_decode_canonical bs s :
  utf8_decode bs = DOk s -> utf8_encode s = Some bs.
Proof. apply utf8_go_canonical. Qed.

(** every code point of a successful decoding is a Unicode scalar
    value: at most U+10FFFF and not a surrogate. *)
Theorem utf8_decode_scalar bs s :
  utf8_decode bs = DOk s -> Forall (fun c => is_scalar c = true) s.
Proof. intros H. eapply utf8_encode_scalar, utf8_decode_canonical, H. Qed.

(** a decoding error [(start, end)] lies within the input, and the
    bytes before [start] decode: the error names the first ill-formed
    sequence of the message. *)
Theorem utf8_decode_error_prefix bs a e r :
  utf8_decode bs = DErr a e r ->
  (a < e <= length bs)%nat /\ exists s, utf8_decode (take a bs) = DOk s.
Proof.
  unfold utf8_decode. intros H. apply utf8_go_error in H as [Hb Hs].
  rewrite Nat.sub_0_r in Hs. split; [lia | exact Hs].
Qed.

(** on ASCII bytes the UTF-8 and ASCII codecs agree and return the
    byte values as code points. *)
Theorem utf8_decode_ascii bs :
  Forall (fun b => bval b < 0x80) bs ->
  utf8_decode bs = DOk (map bval bs) /\ AsciiCodec.ascii_decode bs = DOk (map bval bs).
Proof. intros H. split; [apply utf8_go_ascii | apply ascii_go_ascii]; done. Qed.

(** The encodings that take CPython's fast path: UTF-8, ASCII and
    Latin-1 under any of their names.  (A non-[str] encoding is a
    [TypeError] before any codec runs.) *)
Definition fast_path (enc : pyval) : bool :=
  match enc with PyStr name => bool_decide (is_Some (builtin name)) | _ => true end.

Lemma scalar_range c : is_scalar c = true -> 0 <= c <= 0x10FFFF.
Proof. unfold is_scalar. rewrite andb_true_iff, in_range_true. tauto. Qed.

Section Registry.
Context `{CodecRegistry}.

(** [bytes.decode] with a name that resolves to UTF-8. *)
Lemma bytes_decode_utf8 name bs :
  builtin name = Some UTF8 ->
  bytes_decode (PyStr name) bs
  = match utf8_decode bs with
    | DOk s => inr s
    | DErr a e r => inl (UnicodeDecodeError "utf-8" a e (reason_msg r))
    end.
Proof. intros Hl. simpl. by rewrite Hl. Qed.

(** With a fast-path codec, a successful [bytes.decode] gives scalar
    values; other codecs may give surrogates ([unicode_escape] does). *)
Lemma bytes_decode_scalar enc bs s :
  fast_path enc = true -> bytes_decode enc bs = inr s -> Forall (fun c => is_scalar c = true) s.
Proof.
  destruct enc as [| | |name]; simpl; try discriminate.
  intros Hf%bool_decide_eq_true. destruct (builtin name) as [[]|]; [..|by destruct Hf];
    intros Hs; repeat case_match; simplify_eq.
  - eapply utf8_decode_scalar; eauto.
  - eapply ascii_go_scalar; eauto.
  - match goal with Hc : run_codec LATIN1 _ = DOk _ |- _ =>
      cbv [run_codec Latin1.latin1_decode] in Hc; injection Hc as <- end.
    apply latin1_scalar.
Qed.

(** Whatever the codec, a decoded text is a Python [str]: code points
    up to U+10FFFF. *)
Lemma bytes_decode_range enc bs s :
  bytes_decode enc bs = inr s -> Forall (fun c => 0 <= c <= 0x10FFFF) s.
Proof.
  intros Hs. destruct enc as [| | |name]; try discriminate.
  destruct (builtin name) eqn:Eb.
  - eapply Forall_impl; [eapply (bytes_decode_scalar (PyStr name)), Hs | apply scalar_range].
    simpl. rewrite Eb. by apply bool_decide_eq_true.
  - simpl in Hs. rewrite Eb in Hs. destruct (other_codec _) eqn:Eo; [|discriminate].
    eapply other_codec_range; eauto.
Qed.

End Registry.

(** Upper-casing an encoding name, to state that the lookup ignores case. *)
Definition to_upper (a : Ascii.ascii) : Ascii.ascii :=
  let n := Ascii.nat_of_ascii a in
  if Nat.leb 97 n && Nat.leb n 122 then Ascii.ascii_of_nat (n - 32) else a.

Fixpoint upper (s : string) : string :=
  match s with EmptyString => EmptyString | String a s' => String (to_upper a) (upper s') end.

Lemma to_upper_normal a :
  is_alnum_or_dot (to_upper a) = is_alnum_or_dot a /\ to_lower (to_upper a) = to_lower a.
Proof. destruct a as [[] [] [] [] [] [] [] []]; split; reflexivity. Qed.

Lemma normalize_go_upper p st s : normalize_go p st (upper s) = normalize_go p st s.
Proof.
  revert p st. induction s as [|a s IH]; intros p st; [done|]. simpl.
  destruct (to_upper_normal a) as [-> ->]. by rewrite !IH.
Qed.

Lemma normalize_upper name : normalize_encoding (upper name) = normalize_encoding name.
Proof. apply normalize_go_upper. Qed.

(** the encoding name is looked up case-insensitively, as CPython's
    normalisation does: ["UTF-8"], ["Utf8"] and ["utf-8"] name one codec. *)
Lemma builtin_upper name : builtin (upper name) = builtin name.
Proof. unfold builtin. by rewrite normalize_upper. Qed.

End CodecProps.
