(* ===== verification/BytesRepr.v ===== *)
(** * [repr(bytes)]: the second diagnostic line of [on_message]

    [print("Message body is: %r" % message.body)] (amq.py, line 33)
    writes [repr] of the body, CPython's [bytes.__repr__]
    ([PyBytes_Repr] with smart quotes): [b], a single quote unless the
    bytes contain a single quote and no double quote, then every byte as itself when it is
    printable ASCII, as [\t], [\n], [\r], as a backslash before the quote
    or a backslash, and as [\xhh] (lower-case hex) otherwise.  The file
    shows that the line is printable ASCII whatever the message holds, so
    a message cannot inject control characters into the log. *)

From S2P Require Import Prelude.

Module BytesRepr.
#[local] Open Scope Z_scope.

(** The lower-case hex digit of [0 <= d < 16]. *)
Definition hexdig (d : Z) : Z := if d <? 10 then 48 + d else 87 + d.

(** The character codes one byte becomes, with quote character [q]. *)
Definition esc_byte (q : Z) (b : Byte.byte) : list Z :=
  let c := bval b in
  if (c =? q) || (c =? 92) then [92; c]
  else if c =? 9 then [92; 116]
  else if c =? 10 then [92; 110]
  else if c =? 13 then [92; 114]
  else if (c <? 32) || (127 <=? c) then [92; 120; hexdig (c / 16); hexdig (c mod 16)]
  else [c].

(** The quote: a double quote (34) when the bytes hold a single quote
    (39) and no double quote, else a single quote. *)
Definition quote_of (bs : bytes) : Z :=
  if existsb (fun b => bval b =? 39) bs && negb (existsb (fun b => bval b =? 34) bs)
  then 34 else 39.

Definition repr_codes (bs : bytes) : list Z :=
  let q := quote_of bs in [98; q] ++ concat (map (esc_byte q) bs) ++ [q].

Definition chr (z : Z) : Ascii.ascii := Ascii.ascii_of_N (Z.to_N z).

Definition bytes_repr (bs : bytes) : string :=
  String.string_of_list_ascii (map chr (repr_codes bs)).

End BytesRepr.

Module BytesReprProps.
Import BytesRepr.
#[local] Open Scope Z_scope.

Definition printable (z : Z) : Prop := 32 <= z <= 126.

Lemma hexdig_printable d : 0 <= d < 16 -> printable (hexdig d).
Proof. unfold hexdig, printable. intros. destruct (Z.ltb_spec d 10); lia. Qed.

Lemma quote_of_cases bs : quote_of bs = 34 \/ quote_of bs = 39.
Proof. unfold quote_of. case_match; auto. Qed.

Lemma esc_byte_printable q b :
  (q = 34 \/ q = 39) -> Forall printable (esc_byte q b).
Proof.
  intros Hq. pose proof (bval_range b). unfold esc_byte, printable.
  destruct (Z.eqb_spec (bval b) q), (Z.eqb_spec (bval b) 92); simpl;
    [repeat constructor; lia..|].
  split_tests; repeat constructor; try lia;
    apply hexdig_printable; zify_divmod.
Qed.

Lemma esc_byte_length q b : (1 <= length (esc_byte q b) <= 4)%nat.
Proof. unfold esc_byte. repeat case_match; simpl; lia. Qed.

Lemma repr_codes_printable bs : Forall printable (repr_codes bs).
Proof.
  unfold repr_codes. pose proof (quote_of_cases bs) as Hq.
  apply Forall_app; split; [|apply Forall_app; split].
  - repeat constructor; unfold printable; lia.
  - apply Forall_concat, Forall_forall. intros l Hl.
    apply list_elem_of_In, in_map_iff in Hl as (b & <- & _).
    by apply esc_byte_printable.
  - repeat constructor; unfold printable; lia.
Qed.

(** the diagnostic [repr] of any message body is printable ASCII
    (codes 32 to 126): no byte of a message reaches the log as a control
    character or a non-ASCII character. *)
Theorem bytes_repr_printable bs :
  Forall (fun a => 32 <= Z.of_N (Ascii.N_of_ascii a) <= 126)
         (String.list_ascii_of_string (bytes_repr bs)).
Proof.
  unfold bytes_repr. rewrite String.list_ascii_of_string_of_list_ascii.
  apply Forall_map. eapply Forall_impl; [apply repr_codes_printable|].
  intros z Hz. unfold chr, printable in *.
  rewrite Ascii.N_ascii_embedding by lia. lia.
Qed.

(** the [repr] of [n] bytes has between [n + 3] and [4 n + 3]
    characters: [b], two quotes, and one to four per byte. *)
Theorem bytes_repr_length bs :
  (length bs + 3 <= String.length (bytes_repr bs) <= 4 * length bs + 3)%nat.
Proof.
  unfold bytes_repr, repr_codes.
  rewrite length_string_of_list_ascii, length_map, !length_app. simpl.
  generalize (quote_of bs) as q. intros q.
  induction bs as [|b bs IH]; simpl; [lia|].
  rewrite length_app. pose proof (esc_byte_length q b). lia.
Qed.

End BytesReprProps.
