(* ===== verification/StrRepr.v ===== *)
(** * [repr(str)]: how [MockQueue.put] prints the text of an event

    [print(event)] (amq.py, line 64) writes [str] of the event dict, which
    is [repr] of its key and its value.  [str_repr] is CPython's
    [unicode_repr]: a double quote when the text holds a single quote and
    no double quote, else a single quote; the quote and the backslash
    escaped; [\t], [\n], [\r]; the other ASCII controls and DEL as
    [\xhh]; other ASCII as itself; a non-ASCII character as itself when
    the Unicode database calls it printable, else as [\xhh], [\uhhhh] or
    [\Uhhhhhhhh] by its size.  The database is the class [UnicodeDB]: the
    repr is defined for any [isprintable], and no theorem depends on it.

    [unescape] reads a quoted literal back the way [ast.literal_eval]
    reads the escapes [repr] writes; [unescape_repr] is the round trip
    for every string of code points up to U+10FFFF. *)

From S2P Require Import Prelude BytesRepr.

Module StrRepr.
#[local] Open Scope Z_scope.

(** [Py_UNICODE_ISPRINTABLE]: the Unicode database's printable test. *)
Class UnicodeDB := isprintable : Z -> bool.

(** [n] lower-case hex digits of [c], most significant first, as
    [Py_hexdigits[(ch >> 4k) & 0xf]]. *)
Definition hex_digits (n : nat) (c : Z) : list Z :=
  map (fun k => BytesRepr.hexdig (Z.land (Z.shiftr c (4 * Z.of_nat k)) 0xF)) (rev (seq 0 n)).

Section Repr.
Context `{UnicodeDB}.

Definition str_quote (s : pystr) : Z :=
  if existsb (fun c => c =? 39) s && negb (existsb (fun c => c =? 34) s) then 34 else 39.

(** One character of the text, with quote [q]. *)
Definition esc_char (q c : Z) : list Z :=
  if (c =? q) || (c =? 92) then [92; c]
  else if c =? 9 then [92; 116]
  else if c =? 10 then [92; 110]
  else if c =? 13 then [92; 114]
  else if (c <? 32) || (c =? 127) then 92 :: 120 :: hex_digits 2 c
  else if c <? 127 then [c]
  else if isprintable c then [c]
  else if c <=? 0xFF then 92 :: 120 :: hex_digits 2 c
  else if c <=? 0xFFFF then 92 :: 117 :: hex_digits 4 c
  else 92 :: 85 :: hex_digits 8 c.

Definition str_repr (s : pystr) : pystr :=
  let q := str_quote s in [q] ++ concat (map (esc_char q) s) ++ [q].

End Repr.

(** Reading back: the value of a lower-case hex digit. *)
Definition unhex (d : Z) : option Z :=
  if (48 <=? d) && (d <=? 57) then Some (d - 48)
  else if (97 <=? d) && (d <=? 102) then Some (d - 87)
  else None.

Fixpoint hexval (acc : Z) (ds : list Z) : option Z :=
  match ds with
  | [] => Some acc
  | d :: ds' => match unhex d with Some v => hexval (acc * 16 + v) ds' | None => None end
  end.

Definition cons_char (c : option Z) (r : option (pystr * list Z)) : option (pystr * list Z) :=
  match c, r with Some c, Some (s, rest) => Some (c :: s, rest) | _, _ => None end.

(** The body of a literal opened with quote [q], up to its closing
    quote: the text and what follows the literal. *)
Fixpoint unescape (q : Z) (l : list Z) : option (pystr * list Z) :=
  match l with
  | [] => None
  | c :: r =>
    if c =? q then Some ([], r)
    else if c =? 92 then
      match r with
      | [] => None
      | e :: r1 =>
        if e =? 120 then
          match r1 with
          | d1 :: d2 :: r2 => cons_char (hexval 0 [d1; d2]) (unescape q r2)
          | _ => None
          end
        else if e =? 117 then
          match r1 with
          | d1 :: d2 :: d3 :: d4 :: r2 => cons_char (hexval 0 [d1; d2; d3; d4]) (unescape q r2)
          | _ => None
          end
        else if e =? 85 then
          match r1 with
          | d1 :: d2 :: d3 :: d4 :: d5 :: d6 :: d7 :: d8 :: r2 =>
            cons_char (hexval 0 [d1; d2; d3; d4; d5; d6; d7; d8]) (unescape q r2)
          | _ => None
          end
        else if e =? 116 then cons_char (Some 9) (unescape q r1)
        else if e =? 110 then cons_char (Some 10) (unescape q r1)
        else if e =? 114 then cons_char (Some 13) (unescape q r1)
        else cons_char (Some e) (unescape q r1)
      end
    else cons_char (Some c) (unescape q r)
  end.

(** A whole literal: its opening quote, then its body. *)
Definition parse_literal (l : list Z) : option (pystr * list Z) :=
  match l with
  | q :: r => if (q =? 39) || (q =? 34) then unescape q r else None
  | [] => None
  end.

End StrRepr.

Module StrReprFacts.
Import StrRepr.
#[local] Open Scope Z_scope.

Lemma hex_digit c k : 0 <= c ->
  Z.land (Z.shiftr c (4 * Z.of_nat k)) 0xF = (c / 16 ^ Z.of_nat k) mod 16.
Proof.
  intros Hc. change 0xF with (Z.ones 4). rewrite Z.land_ones, Z.shiftr_div_pow2 by lia.
  by rewrite Z.pow_mul_r by lia.
Qed.

Lemma unhex_hexdig x : 0 <= x < 16 -> unhex (BytesRepr.hexdig x) = Some x.
Proof.
  intros Hx. unfold BytesRepr.hexdig, unhex.
  destruct (Z.ltb_spec x 10); split_tests_by lia; f_equal; lia.
Qed.

(** Reading [n] digits of [c] gives [c] modulo [16 ^ n]. *)
Lemma hexval_digits n c acc : 0 <= c ->
  hexval acc (hex_digits n c) = Some (acc * 16 ^ Z.of_nat n + c mod 16 ^ Z.of_nat n).
Proof.
  intros Hc. revert acc. induction n as [|n IH]; intros acc.
  - simpl. f_equal. rewrite Z.mod_1_r. lia.
  - unfold hex_digits. rewrite seq_S, rev_app_distr. simpl.
    rewrite hex_digit, unhex_hexdig by (try apply Z.mod_pos_bound; lia).
    fold (hex_digits n c). rewrite IH. f_equal.
    rewrite Nat2Z.inj_succ, Z.pow_succ_r by lia.
    rewrite (Z.mul_comm 16 (16 ^ Z.of_nat n)), Z.rem_mul_r by (try apply Z.pow_nonzero; lia).
    lia.
Qed.

Lemma hexval_fixed n c : 0 <= c < 16 ^ Z.of_nat n -> hexval 0 (hex_digits n c) = Some c.
Proof. intros Hc. rewrite hexval_digits by lia. rewrite Z.mod_small by lia. done. Qed.

Lemma length_hex_digits n c : length (hex_digits n c) = n.
Proof. unfold hex_digits. by rewrite length_map, length_rev, length_seq. Qed.

Lemma quote_cases q : (q =? 39) || (q =? 34) = true -> q = 39 \/ q = 34.
Proof. rewrite orb_true_iff, !Z.eqb_eq. tauto. Qed.

Lemma str_quote_cases s : str_quote s = 39 \/ str_quote s = 34.
Proof. unfold str_quote. case_match; auto. Qed.

Section Escape.
Context `{UnicodeDB}.

(** Each form [esc_char] writes reads back as its character. *)
Lemma unescape_lit q c r :
  c <> q -> c <> 92 -> unescape q (c :: r) = cons_char (Some c) (unescape q r).
Proof.
  intros H1 H2. simpl. by rewrite (proj2 (Z.eqb_neq c q) H1), (proj2 (Z.eqb_neq c 92) H2).
Qed.

Lemma unescape_bs q e r :
  (q = 39 \/ q = 34) -> (e = 39 \/ e = 34 \/ e = 92) ->
  unescape q (92 :: e :: r) = cons_char (Some e) (unescape q r).
Proof. intros [-> | ->] [-> | [-> | ->]]; reflexivity. Qed.

Lemma unescape_named q r :
  (q = 39 \/ q = 34) ->
  unescape q (92 :: 116 :: r) = cons_char (Some 9) (unescape q r)
  /\ unescape q (92 :: 110 :: r) = cons_char (Some 10) (unescape q r)
  /\ unescape q (92 :: 114 :: r) = cons_char (Some 13) (unescape q r).
Proof. intros [-> | ->]; repeat split. Qed.

Lemma unescape_x q c r :
  (q = 39 \/ q = 34) -> 0 <= c < 256 ->
  unescape q ((92 :: 120 :: hex_digits 2 c) ++ r) = cons_char (Some c) (unescape q r).
Proof.
  intros Hq Hc. rewrite <- (hexval_fixed 2 c) by (simpl; lia).
  destruct Hq as [-> | ->]; reflexivity.
Qed.

Lemma unescape_u q c r :
  (q = 39 \/ q = 34) -> 0 <= c < 65536 ->
  unescape q ((92 :: 117 :: hex_digits 4 c) ++ r) = cons_char (Some c) (unescape q r).
Proof.
  intros Hq Hc. rewrite <- (hexval_fixed 4 c) by (simpl; lia).
  destruct Hq as [-> | ->]; reflexivity.
Qed.

Lemma unescape_U q c r :
  (q = 39 \/ q = 34) -> 0 <= c < 4294967296 ->
  unescape q ((92 :: 85 :: hex_digits 8 c) ++ r) = cons_char (Some c) (unescape q r).
Proof.
  intros Hq Hc. rewrite <- (hexval_fixed 8 c) by (simpl; lia).
  destruct Hq as [-> | ->]; reflexivity.
Qed.

(** One escaped character reads back as itself. *)
Lemma unescape_esc q c r :
  (q = 39 \/ q = 34) -> 0 <= c <= 0x10FFFF ->
  unescape q (esc_char q c ++ r) = cons_char (Some c) (unescape q r).
Proof.
  intros Hq Hc. unfold esc_char.
  destruct ((c =? q) || (c =? 92)) eqn:E0.
  { apply orb_true_iff in E0. rewrite !Z.eqb_eq in E0. apply unescape_bs; lia. }
  apply orb_false_iff in E0 as [E1 E2]. apply Z.eqb_neq in E1, E2.
  destruct (unescape_named q r Hq) as (Ht & Hn & Hr).
  destruct (Z.eqb_spec c 9) as [->|]; [done|].
  destruct (Z.eqb_spec c 10) as [->|]; [done|].
  destruct (Z.eqb_spec c 13) as [->|]; [done|].
  destruct ((c <? 32) || (c =? 127)) eqn:E3.
  { apply orb_true_iff in E3. rewrite Z.ltb_lt, Z.eqb_eq in E3. apply unescape_x; lia. }
  destruct (Z.ltb_spec c 127); [by apply unescape_lit|].
  destruct (isprintable c); [by apply unescape_lit|].
  destruct (Z.leb_spec c 0xFF); [apply unescape_x; lia|].
  destruct (Z.leb_spec c 0xFFFF); [apply unescape_u; lia | apply unescape_U; lia].
Qed.

(** The escaped text and the closing quote read back as the text. *)
Lemma unescape_body q s rest :
  (q = 39 \/ q = 34) -> Forall (fun c => 0 <= c <= 0x10FFFF) s ->
  unescape q (concat (map (esc_char q) s) ++ q :: rest) = Some (s, rest).
Proof.
  intros Hq Hs. induction Hs as [|c s Hc _ IH]; simpl.
  - by rewrite Z.eqb_refl.
  - by rewrite <- app_assoc, unescape_esc, IH.
Qed.

(** [repr] and its reading agree: the literal [repr] writes reads back
    as the text, and what follows is left as it was. *)
Lemma parse_literal_repr s rest :
  Forall (fun c => 0 <= c <= 0x10FFFF) s ->
  parse_literal (str_repr s ++ rest) = Some (s, rest).
Proof.
  intros Hs. unfold str_repr. simpl.
  destruct (str_quote_cases s) as [Hq|Hq]; rewrite Hq; simpl;
    rewrite <- app_assoc; apply unescape_body; auto.
Qed.

End Escape.
End StrReprFacts.
