(* ===== verification/Url.v ===== *)
(** * The broker URL [main] builds, and how the client library reads it

    [connect(f"amqp://{username}:{password}@{host}:{port}/")] (amq.py,
    line 46): each replacement field is [format(value, "")], which is
    [str(value)] for the values an argument holds.  Nothing is quoted: a
    value is pasted verbatim, [None] included.  [amqp_url] is the
    f-string.  [split_url] is how the client library reads the URL back
    (library code, modelled from its sources: yarl's [URL] over
    [urllib.parse.urlsplit]): tab, CR and LF are deleted from the URL;
    the network location runs up to the first [/], [?] or [#]; the user
    information ends at its last [@]; user and password are split at the
    first [:], host and port likewise; user and password are
    percent-decoded ([pct_decode]), the host is lowercased, and the port
    is an integer, [None] when empty, and a [ValueError] when it is not
    made of digits or exceeds 65535 ([parse_port]).  Escapes of bytes
    0x80 and above are kept as written (yarl decodes those that form a
    UTF-8 character, which the 8-bit strings of this model cannot hold),
    bracketed IPv6 hosts and yarl's host validation are not modelled. *)

From S2P Require Import Prelude PyValue.

Module Url.
Import PyValue.

(** The f-string of line 46 on the four values [main] read. *)
Definition amqp_url (p : Params) : string :=
  "amqp://" ++ py_str (username p) ++ ":" ++ py_str (password p) ++ "@"
  ++ py_str (host p) ++ ":" ++ py_str (port p) ++ "/".

Abbreviation chars := (list Ascii.ascii).

Definition ch (n : nat) : Ascii.ascii := Ascii.ascii_of_nat n.
Definition colon := ch 58.
Definition at_sign := ch 64.

(** [s.partition(c)]: the text before the first [c], whether there is
    one, and the text after it. *)
Fixpoint partition (c : Ascii.ascii) (l : chars) : chars * bool * chars :=
  match l with
  | [] => ([], false, [])
  | a :: l' =>
    if Ascii.eqb a c then ([], true, l')
    else let '(x, f, y) := partition c l' in (a :: x, f, y)
  end.

(** [s.rpartition(c)]: the same at the last [c]; without one, everything
    is after it. *)
Definition rpartition (c : Ascii.ascii) (l : chars) : chars * bool * chars :=
  let '(x, f, y) := partition c (rev l) in
  if f then (rev y, true, rev x) else ([], false, l).

(** The characters that end the network location. *)
Definition netloc_end (a : Ascii.ascii) : bool :=
  Ascii.eqb a (ch 47) || Ascii.eqb a (ch 63) || Ascii.eqb a (ch 35).

Fixpoint take_until (f : Ascii.ascii -> bool) (l : chars) : chars :=
  match l with [] => [] | a :: l' => if f a then [] else a :: take_until f l' end.

(** [urlsplit] deletes tab, LF and CR anywhere in the URL. *)
Definition strip_unsafe (l : chars) : chars :=
  List.filter (fun a => negb (Ascii.eqb a (ch 9) || Ascii.eqb a (ch 10) || Ascii.eqb a (ch 13))) l.

Definition percent := ch 37.

(** An escape [%XY] of an ASCII character, and the character. *)
Definition ascii_escape (h1 h2 : Ascii.ascii) : option Ascii.ascii :=
  let hex_val a :=
    let n := Z.of_N (Ascii.N_of_ascii a) in
    if (48 <=? n)%Z && (n <=? 57)%Z then Some (n - 48)%Z
    else if (65 <=? n)%Z && (n <=? 70)%Z then Some (n - 55)%Z
    else if (97 <=? n)%Z && (n <=? 102)%Z then Some (n - 87)%Z
    else None in
  match hex_val h1, hex_val h2 with
  | Some x, Some y =>
    if (x * 16 + y <? 128)%Z then Some (Ascii.ascii_of_N (Z.to_N (x * 16 + y))) else None
  | _, _ => None
  end.

(** yarl's unquoting of the user and the password: each [%XY] escape of
    an ASCII character becomes the character; any other [%] stays. *)
Fixpoint pct_decode (l : chars) : chars :=
  match l with
  | a :: ((h1 :: h2 :: r) as t) =>
    if Ascii.eqb a percent then
      match ascii_escape h1 h2 with
      | Some c => c :: pct_decode r
      | None => a :: pct_decode t
      end
    else a :: pct_decode t
  | a :: t => a :: pct_decode t
  | [] => []
  end.

(** [SplitResult.port]: none when empty, else ASCII digits in range. *)
Definition parse_port (l : chars) : exn + option Z :=
  let fix digits_val (acc : Z) (l : chars) : option Z :=
    match l with
    | [] => Some acc
    | a :: l' =>
      let n := Z.of_N (Ascii.N_of_ascii a) in
      if (48 <=? n)%Z && (n <=? 57)%Z then digits_val (acc * 10 + (n - 48))%Z l' else None
    end in
  match l with
  | [] => inr None
  | _ =>
    match digits_val 0%Z l with
    | Some n => if (n <=? 65535)%Z then inr (Some n) else inl (ValueError "Port out of range 0-65535")
    | None => inl (ValueError ("Port could not be cast to integer value as '"
                               ++ String.string_of_list_ascii l ++ "'"))
    end
  end.

(** The user name, password, host and port the library reads from the
    URL [main] builds (which always begins with [amqp://]). *)
Definition split_url (u : string)
    : exn + (option string * option string * string * option Z) :=
  let l := strip_unsafe (String.list_ascii_of_string u) in
  let netloc := take_until netloc_end (skipn 7 l) in
  let '(userinfo, has_info, hostinfo) := rpartition at_sign netloc in
  let '(user, has_pw, pw) := partition colon userinfo in
  let '(h, _, port) := partition colon hostinfo in
  let lower_char (a : Ascii.ascii) :=
    let k := Ascii.nat_of_ascii a in
    if Nat.leb 65 k && Nat.leb k 90 then Ascii.ascii_of_nat (k + 32) else a in
  match parse_port port with
  | inl e => inl e
  | inr n =>
    inr (if has_info then Some (String.string_of_list_ascii (pct_decode user)) else None,
         if has_info && has_pw then Some (String.string_of_list_ascii (pct_decode pw)) else None,
         String.string_of_list_ascii (map lower_char h), n)
  end.

End Url.

Module UrlProps.
Import PyValue.
Import Url.

Lemma partition_app c l1 l2 :
  c ∉ l1 -> partition c (l1 ++ c :: l2) = (l1, true, l2).
Proof.
  induction l1 as [|a l1 IH]; intros Hn; simpl.
  - by rewrite Ascii.eqb_refl.
  - apply not_elem_of_cons in Hn as [Ha Hn].
    destruct (Ascii.eqb_spec a c); [congruence|]. by rewrite IH.
Qed.

Lemma rpartition_app c l1 l2 :
  c ∉ l2 -> rpartition c (l1 ++ c :: l2) = (l1, true, l2).
Proof.
  intros Hn. unfold rpartition. rewrite rev_app_distr. simpl.
  rewrite <- app_assoc. simpl. rewrite partition_app.
  - by rewrite !rev_involutive.
  - intros Hin. apply Hn. apply list_elem_of_In, in_rev, list_elem_of_In, Hin.
Qed.

Lemma take_until_app f l1 a l2 :
  Forall (fun x => f x = false) l1 -> f a = true -> take_until f (l1 ++ a :: l2) = l1.
Proof.
  intros Hl Ha. induction Hl as [|x l1 Hx _ IH]; simpl; [by rewrite Ha|].
  by rewrite Hx, IH.
Qed.

(** A value avoids the characters [cs]. *)
Definition avoids (cs : list Ascii.ascii) (s : string) : Prop :=
  Forall (fun a => a ∉ cs) (String.list_ascii_of_string s).

Definition avoidsb (cs : list Ascii.ascii) (s : string) : bool :=
  forallb (fun a => negb (bool_decide (a ∈ cs))) (String.list_ascii_of_string s).

Lemma avoidsb_sound cs s : avoidsb cs s = true -> avoids cs s.
Proof.
  unfold avoidsb, avoids. rewrite forallb_forall, Forall_forall.
  intros H a Ha. specialize (H a (proj1 (list_elem_of_In _ _) Ha)).
  apply negb_true_iff, bool_decide_eq_false in H. done.
Qed.

Definition slash := ch 47.
Definition question := ch 63.
Definition hash := ch 35.

Lemma avoids_not_in cs s c : avoids cs s -> c ∈ cs -> c ∉ String.list_ascii_of_string s.
Proof.
  intros Ha Hc Hin. unfold avoids in Ha. rewrite Forall_forall in Ha.
  exact (Ha c Hin Hc).
Qed.

Lemma avoids_netloc s :
  avoids [slash; question; hash] s ->
  Forall (fun x => netloc_end x = false) (String.list_ascii_of_string s).
Proof.
  intros H. eapply Forall_impl; [exact H|]. intros a Ha. unfold netloc_end, slash, question, hash in *.
  destruct (Ascii.eqb_spec a (ch 47)); [subst; set_solver|].
  destruct (Ascii.eqb_spec a (ch 63)); [subst; set_solver|].
  destruct (Ascii.eqb_spec a (ch 35)); [subst; set_solver|]. done.
Qed.

Lemma avoids_one c s : avoids [c] s -> c ∉ String.list_ascii_of_string s.
Proof. intros H. apply (avoids_not_in [c]); [done | set_solver]. Qed.

Lemma netloc_parts U P H T :
  Forall (fun x => netloc_end x = false) U -> Forall (fun x => netloc_end x = false) P ->
  Forall (fun x => netloc_end x = false) H -> Forall (fun x => netloc_end x = false) T ->
  Forall (fun x => netloc_end x = false) (U ++ colon :: P ++ at_sign :: H ++ colon :: T).
Proof.
  intros. repeat (apply Forall_app; split; [done|]; apply Forall_cons; split; [reflexivity|]).
  done.
Qed.

(** The host as yarl returns it: lowercased. *)
Definition lower_host (s : string) : string :=
  String.string_of_list_ascii
    (map (fun a => let k := Ascii.nat_of_ascii a in
                   if Nat.leb 65 k && Nat.leb k 90 then Ascii.ascii_of_nat (k + 32) else a)
         (String.list_ascii_of_string s)).

Definition tab := ch 9.
Definition lf := ch 10.
Definition cr := ch 13.

Lemma strip_unsafe_app l1 l2 : strip_unsafe (l1 ++ l2) = strip_unsafe l1 ++ strip_unsafe l2.
Proof. apply List.filter_app. Qed.

Lemma strip_unsafe_id s :
  avoids [tab; lf; cr] s ->
  strip_unsafe (String.list_ascii_of_string s) = String.list_ascii_of_string s.
Proof.
  unfold avoids, strip_unsafe. induction 1 as [|a l Ha _ IH]; [done|]. simpl. rewrite IH.
  unfold tab, lf, cr in *.
  destruct (Ascii.eqb_spec a (ch 9)); [subst; set_solver|].
  destruct (Ascii.eqb_spec a (ch 10)); [subst; set_solver|].
  destruct (Ascii.eqb_spec a (ch 13)); [subst; set_solver|]. done.
Qed.

Lemma avoids_sub cs1 cs2 s : cs1 ⊆ cs2 -> avoids cs2 s -> avoids cs1 s.
Proof. intros Hs Ha. eapply Forall_impl; [exact Ha|]. intros a Hn Hin. by apply Hn, Hs. Qed.

(** A value that avoids a list of characters avoids any sublist of it,
    decided by computation. *)
Ltac avoids_weaken :=
  match goal with
  | Ha : avoids ?cs ?s |- avoids _ ?s =>
    apply (avoids_sub _ cs); [apply (bool_decide_unpack _); vm_compute; reflexivity | exact Ha]
  end.

(** A text holds an escape [%XY] of an ASCII character. *)
Fixpoint has_escape (l : chars) : bool :=
  match l with
  | a :: ((h1 :: h2 :: r) as t) =>
    (Ascii.eqb a percent && bool_decide (is_Some (ascii_escape h1 h2))) || has_escape t
  | _ :: t => has_escape t
  | [] => false
  end.

Lemma pct_decode_cons a t :
  pct_decode (a :: t)
  = match t with
    | h1 :: h2 :: r =>
      if Ascii.eqb a percent then
        match ascii_escape h1 h2 with Some c => c :: pct_decode r | None => a :: pct_decode t end
      else a :: pct_decode t
    | _ => a :: pct_decode t
    end.
Proof. by destruct t as [|h1 [|h2 r]]. Qed.


Lemma has_escape_cons a t :
  has_escape (a :: t)
  = match t with
    | h1 :: h2 :: _ =>
      (Ascii.eqb a percent && bool_decide (is_Some (ascii_escape h1 h2))) || has_escape t
    | _ => has_escape t
    end.
Proof. by destruct t as [|h1 [|h2 r]]. Qed.

(** Unquoting never lengthens a text, and shortens one with an escape. *)
Lemma pct_decode_length l :
  (length (pct_decode l) <= length l)%nat
  /\ (has_escape l = true -> (length (pct_decode l) < length l)%nat).
Proof.
  induction l as [l IH] using list_len_ind.
  destruct l as [|a t]; [split; [done | discriminate]|]. rewrite pct_decode_cons, has_escape_cons.
  destruct (IH t) as [Ht Ht']; [simpl; lia|].
  destruct t as [|h1 [|h2 r]];
    [cbn [length] in *; split; [lia | intros He; specialize (Ht' He); lia] ..|].
  destruct (IH r) as [Hr _]; [simpl; lia|]. cbn [length] in *.
  destruct (Ascii.eqb a percent); [destruct (ascii_escape h1 h2)|]; cbn [length andb orb].
  - split; [lia|]. intros _. lia.
  - rewrite bool_decide_eq_false_2 by apply is_Some_None. cbn [andb orb].
    split; [lia|]. intros He. specialize (Ht' He). lia.
  - split; [lia|]. intros He. specialize (Ht' He). lia.
Qed.

(** What the library reads from the URL [main] builds, for values without
    the delimiters the f-string leaves unescaped ([/], [?], [#] and the
    deleted tab, LF, CR anywhere, [:] in the user name, [:] and [@] in
    the host, [@] in the port). *)
Lemma split_amqp_url (p : PyValue.Params) :
  Forall (avoids [slash; question; hash; tab; lf; cr])
    [py_str (username p); py_str (password p); py_str (host p); py_str (port p)] ->
  avoids [colon] (py_str (username p)) ->
  avoids [colon] (py_str (host p)) -> avoids [at_sign] (py_str (host p)) ->
  avoids [at_sign] (py_str (port p)) ->
  split_url (amqp_url p)
  = match parse_port (String.list_ascii_of_string (py_str (port p))) with
    | inl e => inl e
    | inr n =>
      inr (Some (String.string_of_list_ascii
                   (pct_decode (String.list_ascii_of_string (py_str (username p))))),
           Some (String.string_of_list_ascii
                   (pct_decode (String.list_ascii_of_string (py_str (password p))))),
           lower_host (py_str (host p)),
           n)
    end.
Proof.
  intros Hall Hu Hh1 Hh2 Ht. rewrite !Forall_cons in Hall.
  destruct Hall as (Au & Ap & Ah & At & _).
  unfold split_url, amqp_url. rewrite !list_ascii_of_string_app, !strip_unsafe_app.
  rewrite (strip_unsafe_id (py_str (username p))), (strip_unsafe_id (py_str (password p))),
    (strip_unsafe_id (py_str (host p))), (strip_unsafe_id (py_str (port p)))
    by avoids_weaken.
  set (U := String.list_ascii_of_string (py_str (username p))).
  set (P := String.list_ascii_of_string (py_str (password p))).
  set (H := String.list_ascii_of_string (py_str (host p))).
  set (T := String.list_ascii_of_string (py_str (port p))).
  simpl. rewrite ?drop_0, ?skipn_O.
  replace (U ++ _ :: P ++ _ :: H ++ _ :: T ++ [_])
    with ((U ++ colon :: P ++ at_sign :: H ++ colon :: T) ++ [ch 47])
    by (repeat first [rewrite <- app_assoc | rewrite <- app_comm_cons]; reflexivity).
  rewrite take_until_app
    by (try reflexivity; apply netloc_parts; apply avoids_netloc;
        avoids_weaken).
  replace (U ++ colon :: P ++ at_sign :: H ++ colon :: T)
    with ((U ++ colon :: P) ++ at_sign :: (H ++ colon :: T))
    by (repeat first [rewrite <- app_assoc | rewrite <- app_comm_cons]; reflexivity).
  rewrite rpartition_app.
  2: { rewrite elem_of_app, elem_of_cons. intros [Hin|[Hin|Hin]];
       [by apply (avoids_one _ _ Hh2) | discriminate | by apply (avoids_one _ _ Ht)]. }
  rewrite !partition_app by (apply avoids_one; assumption).
  reflexivity.
Qed.


(** C36: a password holding an escape [%XY] of an ASCII character, which
    the f-string pastes unquoted, is never read back as itself: the
    library unquotes it into a shorter text. *)
Theorem amqp_url_password_escape (p : PyValue.Params) u' pw' h' n :
  Forall (avoids [slash; question; hash; tab; lf; cr])
    [py_str (username p); py_str (password p); py_str (host p); py_str (port p)] ->
  avoids [colon] (py_str (username p)) -> avoids [colon; at_sign] (py_str (host p)) ->
  avoids [at_sign] (py_str (port p)) ->
  has_escape (String.list_ascii_of_string (py_str (password p))) = true ->
  split_url (amqp_url p) = inr (u', pw', h', n) ->
  pw' <> Some (py_str (password p)).
Proof.
  intros Hall Hu Hh Ht He.
  rewrite split_amqp_url by (done || avoids_weaken).
  destruct (parse_port _); [discriminate|]. intros [= _ <- _ _] Heq. injection Heq as Heq.
  apply (f_equal String.list_ascii_of_string) in Heq.
  rewrite String.list_ascii_of_string_of_list_ascii in Heq.
  destruct (pct_decode_length (String.list_ascii_of_string (py_str (password p)))) as [_ Hlt].
  specialize (Hlt He). rewrite Heq in Hlt. lia.
Qed.


Definition escaped_params : PyValue.Params :=
  {| channel_name := PyStr "hello"; host := PyStr "localhost"; port := PyStr "5672";
     username := PyStr "test"; password := PyStr "a%2Fb"; encoding := PyStr "utf-8" |}.

Lemma amqp_url_password_escape_witness :
  split_url (amqp_url escaped_params) = inr (Some "test"%string, Some "a/b"%string, "localhost"%string, Some 5672%Z)
  /\ Some "a/b"%string <> Some (py_str (password escaped_params)).
Proof.
  assert (split_url (amqp_url escaped_params)
          = inr (Some "test"%string, Some "a/b"%string, "localhost"%string, Some 5672%Z)) as Hs
    by (vm_compute; reflexivity).
  split; [exact Hs|].
  apply (amqp_url_password_escape escaped_params (Some "test"%string) _ "localhost"%string (Some 5672%Z));
    [| apply avoidsb_sound; vm_compute; reflexivity .. | vm_compute; reflexivity | exact Hs].
  apply Forall_forall. intros x Hx%list_elem_of_In. apply avoidsb_sound.
  repeat (destruct Hx as [<-|Hx]; [vm_compute; reflexivity|]). destruct Hx.
Defined.
End UrlProps.
