(* ===== verification/Sink.v ===== *)
(** * The event sink: what [on_message] hands its events to

    [on_message] ends with [await queue.put({"body": text})] (amq.py,
    line 34).  [queue] is the host's [asyncio.Queue] (unbounded, so [put]
    never suspends) or, when the module runs as a script, the [MockQueue]
    of lines 59-64, whose [put] prints the event.  The class [EventSink]
    is the contract the callback relies on: [put] adds one event and the
    events put so far ([history]) grow by exactly that event at the end;
    [put_out] is what [put] prints on the process's standard output.
    [AsyncioQueue] implements it with the queue's contents, printing
    nothing. *)

From S2P Require Import Prelude.

Module Sink.

(** The event dict [{"body": text}]: one key, the decoded text. *)
Record event := { body : pystr }.

#[export] Instance event_eq_dec : EqDecision event.
Proof. solve_decision. Qed.

(** What the callback may do with a sink, and what it observes: [put]
    changes the sink and prints the lines [put_out] on the process's
    standard output (none for an [asyncio.Queue]). *)
Class EventSink (Q : Type) := {
  put : event -> Q -> Q;
  put_out : event -> list pystr;
  history : Q -> list event
}.

(** The law every sink obeys: [put] appends, in call order. *)
Class EventSinkLaws (Q : Type) `{EventSink Q} := {
  put_history e q : history (put e q) = history q ++ [e]
}.

(** [asyncio.Queue] with no [maxsize]: [put] does [put_nowait], which
    appends to the internal deque.  The host's [get] calls are not
    modelled; the list is what was put, in order. *)
Record AsyncioQueue := { aq_items : list event }.

Definition aq_put (e : event) (q : AsyncioQueue) : AsyncioQueue :=
  {| aq_items := aq_items q ++ [e] |}.

#[export] Instance asyncio_queue_sink : EventSink AsyncioQueue := {
  put := aq_put;
  put_out _ := [];
  history := aq_items
}.

#[export] Instance asyncio_queue_laws : EventSinkLaws AsyncioQueue.
Proof. constructor. reflexivity. Qed.

End Sink.
