(* ===== verification/Adapter.v ===== *)
(** * The adapter: [main] and its callback [on_message]

    [main(queue, args)] (amq.py, lines 23-53) is a coroutine with five
    await points: [connect(url)] (line 46), [connection.channel()] (line
    50), [channel.declare_queue(channel_name)] (line 51),
    [amq_queue.consume(on_message, no_ack=True)] (line 52) and
    [asyncio.Future()] (line 53); the last four run inside
    [async with connection:] (line 48), whose exit closes the connection.
    The state [rstate] records where [main] is suspended ([pc]), the
    connection's state ([conn]), whether the consumer is registered, the
    sink, the process's standard output (shared by the prints of
    [on_message] and whatever [put] prints), the calls made to the
    client library and,
    as ghost state, the bodies delivered to the callback and the
    exceptions the callback raised.  An [input] is what the environment
    does next: the pending await returns or raises, the task is
    cancelled, the broker delivers a message, or the connection is lost.
    [step] is one input; [Reachable] the states a run reaches from
    [main_start].

    The client library's side is modelled from its documented behaviour:
    a delivery runs [on_message] to completion (it never suspends, since
    [put] on an unbounded queue does not block), an exception that
    escapes [on_message] is logged by the library and does not stop
    consumption ([deliver]), and a lost connection ends consumption but
    completes no future of [main]. *)

From S2P Require Import Prelude PyValue Codec BytesRepr Url Sink.
Import PyValue Codec Sink.

Module Adapter.

(** The calls [main] makes to the client library, in the order made. *)
Inductive call :=
| CallConnect (url : string)
| CallChannel
| CallDeclare (name : pyval)
| CallConsume (no_ack : bool)
| CallClose.

#[export] Instance call_eq_dec : EqDecision call.
Proof. solve_decision. Qed.

(** How [main] ended: cancelled, or with an exception escaping. *)
Inductive outcome := Cancelled | Raised (e : exn).

(** Where [main] is suspended. *)
Inductive pc :=
| PcConnect | PcChannel | PcDeclare | PcConsume | PcForever
| PcDone (o : outcome).

(** The connection object: not yet obtained, open, dropped by the broker,
    or closed by [__aexit__]. *)
Inductive conn := NoConn | ConnOpen | ConnLost | ConnClosed.

#[export] Instance outcome_eq_dec : EqDecision outcome.
Proof. solve_decision. Qed.
#[export] Instance pc_eq_dec : EqDecision pc.
Proof. solve_decision. Qed.
#[export] Instance conn_eq_dec : EqDecision conn.
Proof. solve_decision. Qed.

(** An [AbstractIncomingMessage]: its body, and the text of its [%r]. *)
Record message := { msg_body : bytes; msg_repr : string }.

Inductive input :=
| IReturn
| IRaise (e : exn)
| ICancel
| IDeliver (m : message)
| ILost.

Section Runner.
Context {Q : Type} `{EventSink Q} `{CR : Codec.CodecRegistry}.

Record rstate := {
  rs_pc : pc;
  rs_conn : conn;
  rs_consuming : bool;
  rs_sink : Q;
  rs_stdout : list pystr;
  rs_calls : list call;
  rs_delivered : list bytes;
  rs_cb_errors : list exn
}.

Definition set_pc (p : pc) (s : rstate) : rstate :=
  {| rs_pc := p; rs_conn := rs_conn s; rs_consuming := rs_consuming s;
     rs_sink := rs_sink s; rs_stdout := rs_stdout s; rs_calls := rs_calls s;
     rs_delivered := rs_delivered s; rs_cb_errors := rs_cb_errors s |}.

(** Issue a call to the client library and suspend at [p]. *)
Definition await_call (c : call) (p : pc) (s : rstate) : rstate :=
  {| rs_pc := p; rs_conn := rs_conn s; rs_consuming := rs_consuming s;
     rs_sink := rs_sink s; rs_stdout := rs_stdout s; rs_calls := rs_calls s ++ [c];
     rs_delivered := rs_delivered s; rs_cb_errors := rs_cb_errors s |}.

(** The event [on_message] builds from a body, when it decodes. *)
Definition decoded (enc : pyval) (b : bytes) : option event :=
  match Codec.bytes_decode enc b with
  | inr txt => Some {| body := txt |}
  | inl _ => None
  end.

(** [on_message] (lines 28-34): two prints, then the decode, then the
    put, whose own output follows the two lines; an exception of the
    decode escapes after the prints and before the put.  Returns the
    new state and the escaping exception. *)
Definition on_message (enc : pyval) (m : message) (s : rstate)
    : rstate * option exn :=
  let out := rs_stdout s ++
      [codes ("[x] Received message " ++ msg_repr m);
       codes ("Message body is: " ++ BytesRepr.bytes_repr (msg_body m))] in
  let s' := {| rs_pc := rs_pc s; rs_conn := rs_conn s;
               rs_consuming := rs_consuming s; rs_sink := rs_sink s;
               rs_stdout := out; rs_calls := rs_calls s;
               rs_delivered := rs_delivered s ++ [msg_body m];
               rs_cb_errors := rs_cb_errors s |} in
  match Codec.bytes_decode enc (msg_body m) with
  | inr txt =>
    ({| rs_pc := rs_pc s'; rs_conn := rs_conn s'; rs_consuming := rs_consuming s';
        rs_sink := put {| body := txt |} (rs_sink s');
        rs_stdout := rs_stdout s' ++ put_out {| body := txt |};
        rs_calls := rs_calls s'; rs_delivered := rs_delivered s';
        rs_cb_errors := rs_cb_errors s' |}, None)
  | inl e => (s', Some e)
  end.

(** The client library's consumer wrapper: it runs the callback and logs
    an exception that escapes it; consumption goes on. *)
Definition deliver (enc : pyval) (m : message) (s : rstate) : rstate :=
  match on_message enc m s with
  | (s', None) => s'
  | (s', Some e) =>
    {| rs_pc := rs_pc s'; rs_conn := rs_conn s'; rs_consuming := rs_consuming s';
       rs_sink := rs_sink s'; rs_stdout := rs_stdout s'; rs_calls := rs_calls s';
       rs_delivered := rs_delivered s'; rs_cb_errors := rs_cb_errors s' ++ [e] |}
  end.

(** [async with connection:] exits: [__aexit__] closes the connection,
    which ends the consumption, and [main] finishes with [o]. *)
Definition exit_with (o : outcome) (s : rstate) : rstate :=
  {| rs_pc := PcDone o; rs_conn := ConnClosed; rs_consuming := false;
     rs_sink := rs_sink s; rs_stdout := rs_stdout s; rs_calls := rs_calls s ++ [CallClose];
     rs_delivered := rs_delivered s; rs_cb_errors := rs_cb_errors s |}.

(** The broker drops the connection: consumption stops. *)
Definition lose (s : rstate) : rstate :=
  {| rs_pc := rs_pc s; rs_conn := ConnLost; rs_consuming := false;
     rs_sink := rs_sink s; rs_stdout := rs_stdout s; rs_calls := rs_calls s;
     rs_delivered := rs_delivered s; rs_cb_errors := rs_cb_errors s |}.

Definition connect_returned (s : rstate) : rstate :=
  {| rs_pc := PcChannel; rs_conn := ConnOpen; rs_consuming := rs_consuming s;
     rs_sink := rs_sink s; rs_stdout := rs_stdout s; rs_calls := rs_calls s ++ [CallChannel];
     rs_delivered := rs_delivered s; rs_cb_errors := rs_cb_errors s |}.

(** [consume] returned: the consumer is registered, on a live connection
    (on a dropped one the library has no channel to deliver on). *)
Definition consume_returned (s : rstate) : rstate :=
  {| rs_pc := PcForever; rs_conn := rs_conn s;
     rs_consuming := match rs_conn s with ConnOpen => true | _ => false end;
     rs_sink := rs_sink s; rs_stdout := rs_stdout s; rs_calls := rs_calls s;
     rs_delivered := rs_delivered s; rs_cb_errors := rs_cb_errors s |}.

Definition conn_open (s : rstate) : bool :=
  match rs_conn s with ConnOpen => true | _ => false end.

(** [main] up to its first await: lines 37-46 read the arguments, build
    the URL and call [connect]; no argument is checked. *)
Definition main_start (args : gmap string pyval) (q0 : Q) : rstate :=
  {| rs_pc := PcConnect; rs_conn := NoConn; rs_consuming := false;
     rs_sink := q0; rs_stdout := []; rs_calls := [CallConnect (Url.amqp_url (read_args args))];
     rs_delivered := []; rs_cb_errors := [] |}.

(** One input.  After [connect] returns, [main] enters the [async with]
    and awaits [channel()]; after that [declare_queue(channel_name)];
    then [consume(on_message, no_ack=True)]; then [asyncio.Future()],
    which nothing completes or fails.  An exception or a cancellation at
    [connect] ends [main] with no connection to close; inside the
    [async with] it closes the connection first.  A finished [main] is
    inert; deliveries reach [on_message] only while the consumer is
    registered on an open connection. *)
Definition step (p : Params) (s : rstate) (i : input) : rstate :=
  match rs_pc s, i with
  | PcDone _, _ => s
  | _, IDeliver m => if rs_consuming s && conn_open s then deliver (encoding p) m s else s
  | _, ILost => if conn_open s then lose s else s
  | PcConnect, IReturn => connect_returned s
  | PcConnect, IRaise e => set_pc (PcDone (Raised e)) s
  | PcConnect, ICancel => set_pc (PcDone Cancelled) s
  | PcChannel, IReturn => await_call (CallDeclare (channel_name p)) PcDeclare s
  | PcDeclare, IReturn => await_call (CallConsume true) PcConsume s
  | PcConsume, IReturn => consume_returned s
  | PcForever, IReturn => s
  | PcForever, IRaise _ => s
  | _, IRaise e => exit_with (Raised e) s
  | _, ICancel => exit_with Cancelled s
  end.

Definition run (p : Params) (s : rstate) (ins : list input) : rstate :=
  fold_left (step p) ins s.

(** The states a run of [main args] reaches. *)
Inductive Reachable (args : gmap string pyval) (q0 : Q) : rstate -> Prop :=
| reach_start : Reachable args q0 (main_start args q0)
| reach_step s i : Reachable args q0 s -> Reachable args q0 (step (read_args args) s i).

End Runner.

Arguments rstate Q : clear implicits.

End Adapter.

(** ** Invariants of [main] *)
Module AdapterProps.
Import Adapter.

Section Props.
Context {Q : Type} `{EventSinkLaws Q} `{CR : Codec.CodecRegistry}.

(** The calls of a complete setup, in the order of lines 46-52. *)
Definition protocol (p : Params) : list call :=
  [CallConnect (Url.amqp_url p); CallChannel; CallDeclare (channel_name p);
   CallConsume true].

(** The four awaits of the setup return. *)
Definition setup : list input := [IReturn; IReturn; IReturn; IReturn].

(** The connection is held: obtained and not yet closed by [__aexit__]. *)
Definition held (c : conn) : Prop := c = ConnOpen \/ c = ConnLost.

(** Where [main] is determines the calls made and the connection. *)
Definition phase_inv (p : Params) (s : rstate Q) : Prop :=
  match rs_pc s with
  | PcConnect => rs_calls s = take 1 (protocol p) /\ rs_conn s = NoConn
  | PcChannel => rs_calls s = take 2 (protocol p) /\ held (rs_conn s)
  | PcDeclare => rs_calls s = take 3 (protocol p) /\ held (rs_conn s)
  | PcConsume | PcForever => rs_calls s = take 4 (protocol p) /\ held (rs_conn s)
  | PcDone _ =>
    (rs_calls s = take 1 (protocol p) /\ rs_conn s = NoConn)
    \/ (exists k, (2 <= k <= 4)%nat /\ rs_calls s = take k (protocol p) ++ [CallClose]
                  /\ rs_conn s = ConnClosed)
  end
  /\ (rs_consuming s = true -> rs_pc s = PcForever /\ rs_conn s = ConnOpen).

(** A delivery changes neither where [main] is, nor the connection, nor
    the calls. *)
Lemma deliver_ctrl enc m (s : rstate Q) :
  rs_pc (deliver enc m s) = rs_pc s /\ rs_conn (deliver enc m s) = rs_conn s
  /\ rs_consuming (deliver enc m s) = rs_consuming s
  /\ rs_calls (deliver enc m s) = rs_calls s.
Proof. unfold deliver, on_message. by destruct (Codec.bytes_decode enc (msg_body m)). Qed.

(** A delivery appends the body to the delivered ones and its decoding,
    when there is one, to the sink's history. *)
Lemma deliver_data enc m (s : rstate Q) :
  history (rs_sink (deliver enc m s))
    = history (rs_sink s) ++ option_list (decoded enc (msg_body m))
  /\ rs_delivered (deliver enc m s) = rs_delivered s ++ [msg_body m].
Proof.
  unfold deliver, on_message, decoded.
  destruct (Codec.bytes_decode enc (msg_body m)); simpl; by rewrite ?put_history, ?app_nil_r.
Qed.

Lemma phase_inv_start args q0 : phase_inv (read_args args) (main_start args q0).
Proof. split; [split; reflexivity | discriminate]. Qed.

Lemma phase_inv_ctrl p (s s' : rstate Q) :
  rs_pc s' = rs_pc s -> rs_conn s' = rs_conn s -> rs_consuming s' = rs_consuming s ->
  rs_calls s' = rs_calls s -> phase_inv p s -> phase_inv p s'.
Proof. unfold phase_inv. intros -> -> -> ->. done. Qed.

Lemma phase_inv_deliver p enc m (s : rstate Q) :
  phase_inv p s -> phase_inv p (deliver enc m s).
Proof. destruct (deliver_ctrl enc m s) as (?&?&?&?). by apply phase_inv_ctrl. Qed.

Lemma phase_inv_lose p (s : rstate Q) :
  phase_inv p s -> conn_open s = true -> phase_inv p (lose s).
Proof.
  unfold phase_inv, conn_open, held. intros [Hph _] Ho.
  destruct (rs_conn s) eqn:Ec; try discriminate. simpl.
  split; [|discriminate].
  destruct (rs_pc s); try (destruct Hph as [Hc _]; split; [exact Hc | by right]).
  - destruct Hph as [_ Hn]. congruence.
  - destruct Hph as [[_ Hn]|(k & _ & _ & Hn)]; congruence.
Qed.

(** Leaving the [async with] block after [connect] returned. *)
Lemma phase_inv_exit p o (s : rstate Q) k :
  (2 <= k <= 4)%nat -> rs_calls s = take k (protocol p) -> phase_inv p (exit_with o s).
Proof.
  intros Hk Hc. split; [|discriminate]. right.
  exists k. simpl. by rewrite Hc.
Qed.

Lemma phase_inv_step p (s : rstate Q) i : phase_inv p s -> phase_inv p (step p s i).
Proof.
  intros Hinv. unfold step.
  destruct (rs_pc s) eqn:Epc; [..|done]; destruct i as [| e | | m |];
    try (destruct (rs_consuming s && conn_open s);
         [apply phase_inv_deliver; exact Hinv | exact Hinv]);
    try (destruct (conn_open s) eqn:Eo; [by apply phase_inv_lose | exact Hinv]);
    try exact Hinv.
  all: unfold phase_inv in Hinv; rewrite Epc in Hinv; destruct Hinv as [[Hc Hh] Hcons].
  all: try (eapply phase_inv_exit; [|exact Hc]; lia).
  all: unfold phase_inv, held in *; simpl; rewrite ?Hc.
  all: split; [try (split; [reflexivity | tauto]) |
               intros Hcs; try (destruct (Hcons Hcs); discriminate)].
  all: try (left; split; done).
  split; [done|]. by destruct (rs_conn s).
Qed.

Lemma reachable_phase_inv args q0 (s : rstate Q) :
  Reachable args q0 s -> phase_inv (read_args args) s.
Proof.
  induction 1; [apply phase_inv_start | by apply phase_inv_step].
Qed.

(** A step is a delivery to [on_message], or leaves the sink, the
    delivered bodies and the output untouched. *)
Lemma step_data p (s : rstate Q) i :
  (exists m, i = IDeliver m /\ step p s i = deliver (encoding p) m s)
  \/ (rs_sink (step p s i) = rs_sink s /\ rs_delivered (step p s i) = rs_delivered s
      /\ rs_stdout (step p s i) = rs_stdout s).
Proof.
  unfold step. destruct (rs_pc s), i; simpl; try (right; done);
    repeat case_match; try (right; done); left; eauto.
Qed.

Lemma sink_inv_step p q0 (s : rstate Q) i :
  history (rs_sink s) = history q0 ++ omap (decoded (encoding p)) (rs_delivered s) ->
  history (rs_sink (step p s i))
    = history q0 ++ omap (decoded (encoding p)) (rs_delivered (step p s i)).
Proof.
  intros Hs. destruct (step_data p s i) as [(m & -> & ->)|(-> & -> & _)]; [|done].
  destruct (deliver_data (encoding p) m s) as [-> ->].
  rewrite Hs, omap_app, <- app_assoc. simpl.
  by destruct (decoded (encoding p) (msg_body m)).
Qed.

Definition is_close (c : call) : bool := match c with CallClose => true | _ => false end.

Definition is_done (c : pc) : bool := match c with PcDone _ => true | _ => false end.

Lemma protocol_no_close p k : count_if is_close (take k (protocol p)) = 0%nat.
Proof. destruct k as [|[|[|[|[|k]]]]]; reflexivity. Qed.

Lemma protocol_channel p k :
  CallChannel ∈ take k (protocol p) <-> (2 <= k)%nat.
Proof.
  rewrite list_elem_of_In.
  destruct k as [|[|[|[|[|k]]]]]; simpl; intuition (try congruence; lia).
Qed.

Lemma run_app p (s : rstate Q) ins1 ins2 :
  run p s (ins1 ++ ins2) = run p (run p s ins1) ins2.
Proof. apply fold_left_app. Qed.

Lemma step_done p (s : rstate Q) i : is_done (rs_pc s) = true -> step p s i = s.
Proof. unfold step. by destruct (rs_pc s). Qed.

Lemma run_done p (s : rstate Q) ins : is_done (rs_pc s) = true -> run p s ins = s.
Proof.
  revert s. induction ins as [|i ins IH]; intros s Hd; [done|]. simpl.
  rewrite step_done by done. by apply IH.
Qed.

Lemma step_deliver p (s : rstate Q) m :
  rs_pc s = PcForever -> step p s (IDeliver m)
    = if rs_consuming s && conn_open s then deliver (encoding p) m s else s.
Proof. unfold step. by intros ->. Qed.

(** Deliveries to a registered consumer: each runs [on_message]. *)
Lemma run_deliveries p (s : rstate Q) ms :
  rs_pc s = PcForever -> rs_consuming s = true -> conn_open s = true ->
  history (rs_sink (run p s (map IDeliver ms)))
    = history (rs_sink s) ++ omap (decoded (encoding p)) (map msg_body ms)
  /\ rs_pc (run p s (map IDeliver ms)) = PcForever
  /\ rs_consuming (run p s (map IDeliver ms)) = true.
Proof.
  revert s. induction ms as [|m ms IH]; intros s Hpc Hc Ho; simpl.
  - by rewrite app_nil_r.
  - rewrite step_deliver, Hc, Ho by done. simpl.
    destruct (deliver_ctrl (encoding p) m s) as (Hp' & Hc' & Hs' & _).
    destruct (deliver_data (encoding p) m s) as [Hh _].
    destruct (IH (deliver (encoding p) m s)) as (IH1 & IH2 & IH3);
      [congruence | congruence | unfold conn_open in *; by rewrite Hc' |].
    split; [|done]. rewrite IH1, Hh, <- app_assoc. f_equal.
    by destruct (decoded (encoding p) (msg_body m)).
Qed.

(** C1: the events in the sink are exactly the successful decodings of
    the bodies delivered to [on_message], in delivery order, after what
    the sink held before: nothing is lost, duplicated or reordered, and a
    body that does not decode contributes nothing. *)
Theorem sink_history_decoded args q0 (s : rstate Q) :
  Reachable args q0 s ->
  history (rs_sink s)
    = history q0 ++ omap (decoded (encoding (read_args args))) (rs_delivered s).
Proof.
  induction 1 as [|s i _ IH]; [simpl; by rewrite app_nil_r|].
  by apply sink_inv_step.
Qed.

(** C8: the calls [main] makes to the client library are, at every point
    of a run, a prefix of connect, channel, declare_queue, consume, after
    which at most a close follows, and a close only once connect
    returned: exactly one session, one queue declaration and one consumer
    registration at most. *)
Theorem calls_follow_protocol args q0 (s : rstate Q) :
  Reachable args q0 s ->
  exists k, (1 <= k <= 4)%nat /\
    (rs_calls s = take k (protocol (read_args args))
     \/ ((2 <= k)%nat /\ rs_calls s = take k (protocol (read_args args)) ++ [CallClose])).
Proof.
  intros Hr. destruct (reachable_phase_inv _ _ _ Hr) as [Hph _].
  unfold phase_inv in Hph.
  destruct (rs_pc s);
    try (destruct Hph as [Hc _]; eexists; split; [|left; exact Hc]; lia).
  destruct Hph as [[Hc _]|(k & Hk & Hc & _)];
    [exists 1%nat; split; [lia | by left] | exists k; split; [lia | right; split; [lia | exact Hc]]].
Qed.

(** C9: the connection is released (closed) never before [main] ends,
    exactly once when [main] ends after [connect] returned, and never when
    [connect] did not return. *)
Theorem connection_released_once args q0 (s : rstate Q) :
  Reachable args q0 s ->
  count_if is_close (rs_calls s)
    = if is_done (rs_pc s) && bool_decide (CallChannel ∈ rs_calls s) then 1%nat else 0%nat.
Proof.
  intros Hr. destruct (reachable_phase_inv _ _ _ Hr) as [Hph _].
  unfold phase_inv in Hph.
  destruct (rs_pc s); simpl;
    try (destruct Hph as [Hc _]; by rewrite Hc, protocol_no_close).
  destruct Hph as [[Hc _]|(k & Hk & Hc & _)]; rewrite Hc.
  - rewrite protocol_no_close, bool_decide_eq_false_2; [done|].
    rewrite protocol_channel. lia.
  - rewrite count_if_app, protocol_no_close. simpl.
    rewrite bool_decide_eq_true_2; [done|].
    apply elem_of_app. left. apply protocol_channel. lia.
Qed.

Lemma reachable_run args q0 (s : rstate Q) ins :
  Reachable args q0 s -> Reachable args q0 (run (read_args args) s ins).
Proof.
  revert s. induction ins as [|i ins IH]; intros s Hr; [done|].
  apply IH. by constructor.
Qed.

(** A waiting [main] whose connection is gone ignores every input but a
    cancellation. *)
Lemma step_waiting_dead p (s : rstate Q) i :
  rs_pc s = PcForever -> conn_open s = false -> i <> ICancel -> step p s i = s.
Proof.
  intros Hpc Ho Hi. unfold step. rewrite Hpc, Ho, andb_false_r.
  by destruct i.
Qed.

(** C11: cancellation always ends [main], wherever it is suspended, and
    a cancelled [main] is final: whatever the environment does next, no
    event is pushed, nothing is printed and no call is made. *)
Theorem cancel_final p (s : rstate Q) ins :
  is_done (rs_pc (step p s ICancel)) = true
  /\ run p (step p s ICancel) ins = step p s ICancel.
Proof.
  assert (is_done (rs_pc (step p s ICancel)) = true) as Hd
    by (unfold step; destruct (rs_pc s) eqn:E; simpl; rewrite ?E; reflexivity).
  split; [done | by apply run_done].
Qed.

(** C12: a lost connection does not end [main]: waiting on
    [asyncio.Future()], it stays suspended, receives nothing and raises
    nothing until it is cancelled (the spec asks it to release the
    session and terminate). *)
Theorem lost_connection_hangs p (s : rstate Q) ins :
  rs_pc s = PcForever -> Forall (fun i => i <> ICancel) ins ->
  rs_pc (step p s ILost) = PcForever
  /\ run p (step p s ILost) ins = step p s ILost.
Proof.
  intros Hpc Hins.
  assert (rs_pc (step p s ILost) = PcForever /\ conn_open (step p s ILost) = false)
    as [Hpc' Ho'].
  { unfold step. rewrite Hpc. unfold conn_open.
    destruct (rs_conn s) eqn:E; simpl; rewrite ?E; done. }
  split; [done|].
  generalize (step p s ILost) Hpc' Ho'. clear Hpc Hpc' Ho'.
  induction Hins as [|i ins Hi _ IH]; intros s' Hpc Ho; [done|]. simpl.
  rewrite step_waiting_dead by done. by apply IH.
Qed.

(** C15: once the consumer is registered, a sequence of deliveries pushes
    the decodings of their bodies in delivery order; a body that fails
    to decode is dropped and the next ones are still pushed; consumption
    goes on. *)
Theorem deliveries_in_order args q0 (s : rstate Q) ms :
  Reachable args q0 s -> rs_consuming s = true ->
  history (rs_sink (run (read_args args) s (map IDeliver ms)))
    = history (rs_sink s) ++ omap (decoded (encoding (read_args args))) (map msg_body ms)
  /\ rs_consuming (run (read_args args) s (map IDeliver ms)) = true.
Proof.
  intros Hr Hc. destruct (reachable_phase_inv _ _ _ Hr) as [_ Hcons].
  destruct (Hcons Hc) as [Hpc Ho].
  destruct (run_deliveries (read_args args) s ms) as (H1 & _ & H3); try done.
  - unfold conn_open. by rewrite Ho.
Qed.

(** C16: [on_message] prints its two diagnostic lines first, whatever the
    body; then a body that decodes is pushed as [{"body": text}] and
    nothing escapes, and a body that does not decode leaves the sink as
    it was and the decode error escapes the callback. *)
Theorem on_message_spec enc m (s : rstate Q) :
  match Codec.bytes_decode enc (msg_body m) with
  | inr txt => (on_message enc m s).2 = None
               /\ history (rs_sink (on_message enc m s).1)
                  = history (rs_sink s) ++ [{| body := txt |}]
               /\ rs_stdout (on_message enc m s).1
                  = rs_stdout s ++ [codes ("[x] Received message " ++ msg_repr m);
                                    codes ("Message body is: " ++ BytesRepr.bytes_repr (msg_body m))]
                    ++ put_out {| body := txt |}
  | inl e => (on_message enc m s).2 = Some e
             /\ rs_sink (on_message enc m s).1 = rs_sink s
             /\ rs_stdout (on_message enc m s).1
                = rs_stdout s ++ [codes ("[x] Received message " ++ msg_repr m);
                                  codes ("Message body is: " ++ BytesRepr.bytes_repr (msg_body m))]
  end.
Proof.
  unfold on_message. destruct (Codec.bytes_decode enc (msg_body m)); simpl;
    [done | by rewrite put_history, <- app_assoc].
Qed.

(** C17: no message reaches [on_message] before [consume] returned, nor
    after [main] ended: outside the wait a delivery changes nothing. *)
Theorem no_delivery_outside_wait args q0 (s : rstate Q) m :
  Reachable args q0 s -> rs_pc s <> PcForever ->
  step (read_args args) s (IDeliver m) = s.
Proof.
  intros Hr Hpc. destruct (reachable_phase_inv _ _ _ Hr) as [_ Hcons].
  destruct (rs_consuming s) eqn:Ec; [by destruct (Hcons eq_refl)|].
  unfold step. rewrite Ec. by destruct (rs_pc s).
Qed.

(** What a run shows outside the calls made to the client library. *)
Definition observed (s : rstate Q) :=
  (rs_pc s, rs_conn s, rs_consuming s, rs_sink s, rs_stdout s, rs_delivered s,
   rs_cb_errors s).

Lemma observed_deliver enc m (s1 s2 : rstate Q) :
  observed s1 = observed s2 -> observed (deliver enc m s1) = observed (deliver enc m s2).
Proof.
  destruct s1, s2. unfold observed; simpl. intros Ho.
  injection Ho as -> -> -> -> -> -> ->.
  unfold deliver, on_message; simpl.
  by destruct (Codec.bytes_decode enc (msg_body m)).
Qed.

Lemma observed_step p1 p2 (s1 s2 : rstate Q) i :
  encoding p1 = encoding p2 -> observed s1 = observed s2 ->
  observed (step p1 s1 i) = observed (step p2 s2 i).
Proof.
  intros He Ho. pose proof Ho as Ho'. destruct s1, s2. unfold observed in Ho; simpl in Ho.
  injection Ho as -> -> -> -> -> -> ->.
  unfold step; simpl. rewrite He.
  destruct rs_pc1, i; simpl; try reflexivity;
    unfold conn_open; simpl; repeat case_match; try reflexivity;
    by apply observed_deliver.
Qed.

Lemma observed_run p1 p2 (s1 s2 : rstate Q) ins :
  encoding p1 = encoding p2 -> observed s1 = observed s2 ->
  observed (run p1 s1 ins) = observed (run p2 s2 ins).
Proof.
  intros He. revert s1 s2. induction ins as [|i ins IH]; intros s1 s2 Ho; [done|].
  simpl. apply IH. by apply observed_step.
Qed.

(** C18: [main] validates no argument: whatever [args] holds, it calls
    [connect] at once, and with [host] absent the URL carries the text
    [None] as host name (the spec expects a [ConfigurationError] and no
    connection attempt). *)
Theorem missing_host_connects args (q0 : Q) :
  args !! "host" = None ->
  rs_pc (main_start args q0) = PcConnect
  /\ rs_calls (main_start args q0)
     = [CallConnect ("amqp://" ++ py_str (dict_get args "username") ++ ":"
                     ++ py_str (dict_get args "password") ++ "@None:"
                     ++ py_str (dict_get args "port") ++ "/")%string].
Proof.
  intros Hh. split; [done|].
  unfold main_start, Url.amqp_url, read_args, dict_get; simpl. by rewrite Hh.
Qed.

(** C19: with [channel] absent, [main] declares a queue named [None]:
    [declare_queue(None)], i.e. a server-named queue, instead of failing. *)
Theorem missing_channel_declares_none args (q0 : Q) :
  args !! "channel" = None ->
  rs_calls (run (read_args args) (main_start args q0) [IReturn; IReturn])
  = [CallConnect (Url.amqp_url (read_args args)); CallChannel; CallDeclare PyNone].
Proof.
  intros Hc. simpl. unfold dict_get. by rewrite Hc.
Qed.

(** C21: the password reaches nothing but the URL handed to [connect]:
    two runs whose arguments differ only in the password print the same
    lines, push the same events and end the same way. *)
Theorem password_not_observable args (pw1 pw2 : pyval) (q0 : Q) ins :
  observed (run (read_args (<["password" := pw1]> args))
                (main_start (<["password" := pw1]> args) q0) ins)
  = observed (run (read_args (<["password" := pw2]> args))
                  (main_start (<["password" := pw2]> args) q0) ins).
Proof.
  apply observed_run; [|done].
  unfold read_args, dict_get_or. simpl. by rewrite !lookup_insert_ne.
Qed.

(** C23: without an [encoding] argument the body is decoded as UTF-8. *)
Theorem default_encoding_utf8 args b :
  args !! "encoding" = None ->
  decoded (encoding (read_args args)) b
  = match Utf8.utf8_decode b with DOk t => Some {| body := t |} | DErr _ _ _ => None end.
Proof.
  intros He. unfold decoded, read_args, dict_get_or. simpl. rewrite He.
  unfold Codec.bytes_decode.
  replace (Codec.builtin "utf-8") with (Some Codec.UTF8) by reflexivity.
  simpl. by destruct (Utf8.utf8_decode b).
Qed.

(** The setup's four awaits return: [main] waits with the consumer
    registered on an open connection, having made the four calls. *)
Lemma run_setup args q0 :
  run (read_args args) (main_start args q0) setup
  = {| rs_pc := PcForever; rs_conn := ConnOpen; rs_consuming := true; rs_sink := q0;
       rs_stdout := []; rs_calls := protocol (read_args args); rs_delivered := [];
       rs_cb_errors := [] |}.
Proof. reflexivity. Qed.

(** C22: the spec's scenario, for any arguments and any message: after
    the four awaits of the setup return, a delivery whose body decodes
    under the [encoding] argument pushes its event and nothing else;
    standard output holds the two diagnostic lines and then what [put]
    printed; the calls made are the four of the protocol, and [main]
    waits with the consumer registered and no callback error. *)
Theorem setup_then_delivery args q0 m e :
  decoded (encoding (read_args args)) (msg_body m) = Some e ->
  let s := run (read_args args) (main_start args q0) (setup ++ [IDeliver m]) in
  history (rs_sink s) = history q0 ++ [e]
  /\ rs_stdout s = [codes ("[x] Received message " ++ msg_repr m);
                    codes ("Message body is: " ++ BytesRepr.bytes_repr (msg_body m))] ++ put_out e
  /\ rs_calls s = protocol (read_args args)
  /\ rs_pc s = PcForever /\ rs_consuming s = true /\ rs_cb_errors s = [].
Proof.
  intros Hd. unfold decoded in Hd.
  destruct (Codec.bytes_decode (encoding (read_args args)) (msg_body m)) as [|txt] eqn:E;
    [discriminate|]. injection Hd as <-.
  rewrite run_app, run_setup. cbn [run fold_left].
  rewrite step_deliver by reflexivity. cbn [andb conn_open rs_consuming rs_conn].
  unfold deliver, on_message. rewrite E. cbn.
  rewrite put_history. repeat split; reflexivity.
Qed.

End Props.
(** ** The scenarios of the spec, run on the script's arguments *)

(** The concrete runs use a CPython whose only codecs are the three
    built-in ones; the script's encoding is the default [utf-8]. *)
#[local] Existing Instance Codec.builtin_only.

Definition aq0 : AsyncioQueue := {| aq_items := [] |}.

Definition ping : message :=
  {| msg_body := map byte_of_Z [0x70; 0x69; 0x6e; 0x67]%Z; msg_repr := "<IncomingMessage>" |}.

Definition bad : message := {| msg_body := [byte_of_Z 0xFF%Z]; msg_repr := "<IncomingMessage>" |}.

(** The spec's second scenario, evaluated: a body that is not UTF-8
    is dropped with one [UnicodeDecodeError] logged by the client
    library, [main] keeps running, and the next valid message is
    pushed. *)
Example invalid_then_valid_scenario :
  let s := run (read_args mock_args) (main_start mock_args aq0)
               (setup ++ [IDeliver bad; IDeliver ping]) in
  aq_items (rs_sink s) = [{| body := [112; 105; 110; 103]%Z |}]
  /\ rs_cb_errors s = [UnicodeDecodeError "utf-8" 0 1 "invalid start byte"]
  /\ length (rs_stdout s) = 4%nat
  /\ rs_pc s = PcForever /\ rs_consuming s = true.
Proof. vm_compute. repeat split; reflexivity. Qed.

(** Witnesses: the theorems on the script's arguments. *)
Definition s_wait : rstate AsyncioQueue :=
  run (read_args mock_args) (main_start mock_args aq0) (setup ++ [IDeliver bad; IDeliver ping]).

Lemma sink_history_decoded_witness :
  history (rs_sink s_wait)
    = history aq0 ++ omap (decoded (encoding (read_args mock_args))) (rs_delivered s_wait).
Proof. apply (sink_history_decoded mock_args aq0 s_wait). apply reachable_run, reach_start. Defined.

Lemma calls_follow_protocol_witness :
  exists k, (1 <= k <= 4)%nat /\
    (rs_calls s_wait = take k (protocol (read_args mock_args))
     \/ ((2 <= k)%nat /\ rs_calls s_wait = take k (protocol (read_args mock_args)) ++ [CallClose])).
Proof. apply (calls_follow_protocol mock_args aq0 s_wait). apply reachable_run, reach_start. Defined.

Lemma connection_released_once_witness :
  let s := run (read_args mock_args) s_wait [ICancel] in
  count_if is_close (rs_calls s)
    = if is_done (rs_pc s) && bool_decide (CallChannel ∈ rs_calls s) then 1%nat else 0%nat.
Proof.
  apply (connection_released_once mock_args aq0). apply reachable_run, reachable_run, reach_start.
Defined.

Lemma lost_connection_hangs_witness :
  rs_pc (step (read_args mock_args) s_wait ILost) = PcForever
  /\ run (read_args mock_args) (step (read_args mock_args) s_wait ILost) [IReturn; IDeliver ping]
     = step (read_args mock_args) s_wait ILost.
Proof.
  apply lost_connection_hangs; [vm_compute; reflexivity|].
  repeat constructor; discriminate.
Defined.

Lemma deliveries_in_order_witness :
  history (rs_sink (run (read_args mock_args) s_wait (map IDeliver [ping; bad])))
    = history (rs_sink s_wait)
      ++ omap (decoded (encoding (read_args mock_args))) (map msg_body [ping; bad])
  /\ rs_consuming (run (read_args mock_args) s_wait (map IDeliver [ping; bad])) = true.
Proof.
  apply (deliveries_in_order mock_args aq0 s_wait); [apply reachable_run, reach_start|].
  vm_compute. reflexivity.
Defined.

Lemma no_delivery_outside_wait_witness :
  step (read_args mock_args) (main_start mock_args aq0) (IDeliver ping) = main_start mock_args aq0.
Proof.
  apply (no_delivery_outside_wait mock_args aq0); [apply reach_start | discriminate].
Defined.

Lemma missing_host_connects_witness :
  rs_pc (main_start (delete "host" mock_args) aq0) = PcConnect
  /\ rs_calls (main_start (delete "host" mock_args) aq0)
     = [CallConnect ("amqp://" ++ py_str (dict_get (delete "host" mock_args) "username") ++ ":"
                     ++ py_str (dict_get (delete "host" mock_args) "password") ++ "@None:"
                     ++ py_str (dict_get (delete "host" mock_args) "port") ++ "/")%string].
Proof. apply missing_host_connects. vm_compute. reflexivity. Defined.

Lemma missing_channel_declares_none_witness :
  rs_calls (run (read_args (delete "channel" mock_args))
                (main_start (delete "channel" mock_args) aq0) [IReturn; IReturn])
  = [CallConnect (Url.amqp_url (read_args (delete "channel" mock_args))); CallChannel;
     CallDeclare PyNone].
Proof. apply missing_channel_declares_none. vm_compute. reflexivity. Defined.

Lemma default_encoding_utf8_witness :
  decoded (encoding (read_args mock_args)) (msg_body ping)
  = match Utf8.utf8_decode (msg_body ping) with
    | DOk t => Some {| body := t |} | DErr _ _ _ => None end.
Proof. apply default_encoding_utf8. vm_compute. reflexivity. Defined.

Lemma cancel_final_witness :
  is_done (rs_pc (step (read_args mock_args) s_wait ICancel)) = true
  /\ run (read_args mock_args) (step (read_args mock_args) s_wait ICancel) [IDeliver ping; IReturn]
     = step (read_args mock_args) s_wait ICancel.
Proof. apply (cancel_final (read_args mock_args) s_wait). Defined.

Lemma on_message_spec_witness :
  match Codec.bytes_decode (PyStr "utf-8") (msg_body ping) with
  | inr txt => (on_message (PyStr "utf-8") ping s_wait).2 = None
               /\ history (rs_sink (on_message (PyStr "utf-8") ping s_wait).1)
                  = history (rs_sink s_wait) ++ [{| body := txt |}]
               /\ rs_stdout (on_message (PyStr "utf-8") ping s_wait).1
                  = rs_stdout s_wait ++ [codes ("[x] Received message " ++ msg_repr ping);
                                         codes ("Message body is: "
                                                ++ BytesRepr.bytes_repr (msg_body ping))]
                    ++ put_out {| body := txt |}
  | inl e => (on_message (PyStr "utf-8") ping s_wait).2 = Some e
             /\ rs_sink (on_message (PyStr "utf-8") ping s_wait).1 = rs_sink s_wait
             /\ rs_stdout (on_message (PyStr "utf-8") ping s_wait).1
                = rs_stdout s_wait ++ [codes ("[x] Received message " ++ msg_repr ping);
                                       codes ("Message body is: "
                                              ++ BytesRepr.bytes_repr (msg_body ping))]
  end.
Proof. apply (on_message_spec (PyStr "utf-8") ping s_wait). Defined.

Lemma setup_then_delivery_witness :
  let s := run (read_args mock_args) (main_start mock_args aq0) (setup ++ [IDeliver ping]) in
  history (rs_sink s) = history aq0 ++ [{| body := codes "ping" |}]
  /\ rs_stdout s = [codes ("[x] Received message " ++ msg_repr ping);
                    codes ("Message body is: " ++ BytesRepr.bytes_repr (msg_body ping))]
                   ++ put_out {| body := codes "ping" |}
  /\ rs_calls s = protocol (read_args mock_args)
  /\ rs_pc s = PcForever /\ rs_consuming s = true /\ rs_cb_errors s = [].
Proof. apply setup_then_delivery. vm_compute. reflexivity. Defined.

Lemma password_not_observable_witness :
  observed (run (read_args (<["password" := PyStr "a"]> mock_args))
                (main_start (<["password" := PyStr "a"]> mock_args) aq0) (setup ++ [IDeliver ping]))
  = observed (run (read_args (<["password" := PyStr "b"]> mock_args))
                  (main_start (<["password" := PyStr "b"]> mock_args) aq0) (setup ++ [IDeliver ping])).
Proof. apply (password_not_observable mock_args (PyStr "a") (PyStr "b") aq0). Defined.

End AdapterProps.
