(* ===== verification/OnMessage.v ===== *)
(** * The decode and the diagnostics of [on_message] at its call site

    Lines 33 and 34 of amq.py hand the message body to two library
    functions: [repr(message.body)] for the second diagnostic line and
    [message.body.decode(encoding)] for the event.  [Codec] and
    [BytesRepr] state what those functions do; this file states what the
    callback therefore does with a body: which events it can push
    ([decoded], the event of line 34), what it raises, and what it prints.
    Every property here is about [Adapter.on_message] or
    [Adapter.decoded]. *)

From S2P Require Import Prelude PyValue Codec BytesRepr Sink Adapter.
Import PyValue Codec Sink Adapter.

Module OnMessageProps.
Import Utf8 Utf8Facts CodecProps BytesReprProps.
#[local] Open Scope Z_scope.

Section Callback.
Context {Q : Type} `{EventSink Q} `{CR : Codec.CodecRegistry}.

(** What [on_message] prints, for every body: its two lines, then the
    lines of [put] when the body decodes. *)
Lemma on_message_stdout enc m (s : rstate Q) :
  rs_stdout (on_message enc m s).1
  = rs_stdout s ++ [codes ("[x] Received message " ++ msg_repr m);
                    codes ("Message body is: " ++ BytesRepr.bytes_repr (msg_body m))]
    ++ from_option put_out [] (decoded enc (msg_body m)).
Proof.
  unfold on_message, decoded. destruct (Codec.bytes_decode enc (msg_body m)); simpl;
    by rewrite ?app_nil_r, <- ?app_assoc.
Qed.

(** A failed decode is what escapes, and the sink is left alone. *)
Lemma on_message_err enc m (s : rstate Q) ex :
  Codec.bytes_decode enc (msg_body m) = inl ex ->
  (on_message enc m s).2 = Some ex /\ rs_sink (on_message enc m s).1 = rs_sink s.
Proof. unfold on_message. by intros ->. Qed.

(** The prefix of the diagnostic line, as characters: printable ASCII. *)
Lemma body_prefix_printable :
  Forall (fun a => 32 <= Z.of_N (Ascii.N_of_ascii a) <= 126)
         (String.list_ascii_of_string "Message body is: ").
Proof. repeat constructor; simpl; lia. Qed.

(** C27: with an encoding name that resolves to UTF-8 (the default
    ["utf-8"], or ["UTF8"], ["u8"], ...), a body that is the UTF-8
    encoding of a string of scalar values becomes the event holding
    exactly that string. *)
Theorem decoded_utf8_roundtrip name s bs :
  builtin name = Some UTF8 -> utf8_encode s = Some bs ->
  decoded (PyStr name) bs = Some {| body := s |}.
Proof.
  intros Hl He. unfold decoded. rewrite bytes_decode_utf8 by done.
  by rewrite (utf8_decode_encode _ _ He).
Qed.

(** C28: under UTF-8 the event determines the body: re-encoding the text
    pushed gives back the very bytes received, so two different bodies
    never give the same event (no overlong or alternative forms). *)
Theorem decoded_utf8_canonical name bs e :
  builtin name = Some UTF8 -> decoded (PyStr name) bs = Some e ->
  utf8_encode (body e) = Some bs.
Proof.
  intros Hl. unfold decoded. rewrite bytes_decode_utf8 by done.
  destruct (utf8_decode bs) eqn:E; intros He; simplify_eq; simpl.
  by apply utf8_decode_canonical.
Qed.

(** C29: with an encoding that takes CPython's fast path (UTF-8, ASCII
    or Latin-1, under any of their names), every event pushed holds only
    Unicode scalar values (at most U+10FFFF, no surrogate).  Other
    codecs of the registry may push lone surrogates. *)
Theorem decoded_scalar enc bs e :
  fast_path enc = true ->
  decoded enc bs = Some e -> Forall (fun c => is_scalar c = true) (body e).
Proof.
  intros Hf. unfold decoded. destruct (bytes_decode enc bs) eqn:E; intros He; simplify_eq.
  by eapply bytes_decode_scalar.
Qed.

(** C30: under UTF-8 a body that does not decode makes [on_message] raise
    [UnicodeDecodeError("utf-8", ..., start, end, reason)] with the
    offsets of the first ill-formed sequence, after which nothing was
    pushed; the offsets lie in the body and the bytes before [start]
    are well-formed. *)
Theorem on_message_decode_error name m (s : rstate Q) a e r :
  builtin name = Some UTF8 -> utf8_decode (msg_body m) = DErr a e r ->
  (on_message (PyStr name) m s).2 = Some (UnicodeDecodeError "utf-8" a e (reason_msg r))
  /\ rs_sink (on_message (PyStr name) m s).1 = rs_sink s
  /\ (a < e <= length (msg_body m))%nat
  /\ exists t, utf8_decode (take a (msg_body m)) = DOk t.
Proof.
  intros Hl Hd. destruct (utf8_decode_error_prefix _ _ _ _ Hd) as [Hb Hp].
  destruct (on_message_err (PyStr name) m s (UnicodeDecodeError "utf-8" a e (reason_msg r)))
    as [He Hs]; [by rewrite bytes_decode_utf8, Hd|].
  done.
Qed.

(** C31: on an ASCII body the default ["utf-8"] and the ["ascii"]
    encoding give the same event, whose code points are the bytes. *)
Theorem decoded_ascii_agree bs :
  Forall (fun b => bval b < 0x80) bs ->
  decoded (PyStr "utf-8") bs = Some {| body := map bval bs |}
  /\ decoded (PyStr "ascii") bs = Some {| body := map bval bs |}.
Proof.
  intros Ha. destruct (utf8_decode_ascii bs Ha) as [Hu Hs].
  unfold decoded, bytes_decode.
  replace (builtin "utf-8") with (Some UTF8) by reflexivity.
  replace (builtin "ascii") with (Some ASCII) by reflexivity.
  simpl. by rewrite Hu, Hs.
Qed.

(** C32: the encoding argument is case-insensitive: ["UTF-8"] and
    ["utf-8"] (any name and its upper-case form) give the same events. *)
Theorem decoded_upper name bs :
  decoded (PyStr (upper name)) bs = decoded (PyStr name) bs.
Proof.
  unfold decoded, bytes_decode. rewrite builtin_upper, normalize_upper.
  destruct (builtin name); [by destruct (run_codec _ bs) | by destruct (other_codec _)].
Qed.

(** C33: the body line [on_message] prints is printable ASCII whatever
    the message holds: no byte of a message reaches stdout as a control
    or non-ASCII character. *)
Theorem on_message_body_line_printable enc m (s : rstate Q) :
  exists l, rs_stdout (on_message enc m s).1
            = rs_stdout s ++ [codes ("[x] Received message " ++ msg_repr m); codes l]
              ++ from_option put_out [] (decoded enc (msg_body m))
         /\ Forall (fun a => 32 <= Z.of_N (Ascii.N_of_ascii a) <= 126)
                   (String.list_ascii_of_string l).
Proof.
  eexists. rewrite on_message_stdout. split; [reflexivity|].
  rewrite list_ascii_of_string_app. apply Forall_app.
  split; [apply body_prefix_printable | apply bytes_repr_printable].
Qed.

(** C34: the body line of a body of [n] bytes has between [n + 20] and
    [4 n + 20] characters (the 17 of its prefix, [b], the quotes, and one
    to four per byte). *)
Theorem on_message_body_line_length enc m (s : rstate Q) :
  exists l, rs_stdout (on_message enc m s).1
            = rs_stdout s ++ [codes ("[x] Received message " ++ msg_repr m); codes l]
              ++ from_option put_out [] (decoded enc (msg_body m))
         /\ (length (msg_body m) + 20 <= String.length l <= 4 * length (msg_body m) + 20)%nat.
Proof.
  eexists. rewrite on_message_stdout. split; [reflexivity|].
  rewrite string_length_app. pose proof (bytes_repr_length (msg_body m)).
  change (String.length "Message body is: ") with 17%nat. lia.
Qed.

End Callback.

#[local] Existing Instance builtin_only.

(** Witnesses: the theorems at concrete bodies (["é"] is C6 A9). *)
Definition e_acute : bytes := [byte_of_Z 0xC3; byte_of_Z 0xA9].

Definition broken : message :=
  {| msg_body := [byte_of_Z 0xE2; byte_of_Z 0x28]; msg_repr := "<IncomingMessage>" |}.

Definition s0 : rstate AsyncioQueue := main_start mock_args {| aq_items := [] |}.

Lemma decoded_utf8_roundtrip_witness :
  decoded (PyStr "UTF8") e_acute = Some {| body := [0xE9] |}.
Proof. apply (decoded_utf8_roundtrip "UTF8" [0xE9]); vm_compute; reflexivity. Defined.

Lemma decoded_utf8_canonical_witness :
  utf8_encode (body {| body := [0xE9] |}) = Some e_acute.
Proof. apply (decoded_utf8_canonical "utf-8"); vm_compute; reflexivity. Defined.

Lemma decoded_scalar_witness :
  Forall (fun c => is_scalar c = true) (body {| body := [0x70] |}).
Proof. apply (decoded_scalar (PyStr "ascii") [byte_of_Z 0x70]); vm_compute; reflexivity. Defined.

Lemma on_message_decode_error_witness :
  (on_message (PyStr "utf-8") broken s0).2
    = Some (UnicodeDecodeError "utf-8" 0 1 (reason_msg InvalidContinuationByte))
  /\ rs_sink (on_message (PyStr "utf-8") broken s0).1 = rs_sink s0
  /\ (0 < 1 <= length (msg_body broken))%nat
  /\ exists t, utf8_decode (take 0 (msg_body broken)) = DOk t.
Proof. apply on_message_decode_error; vm_compute; reflexivity. Defined.

Lemma decoded_ascii_agree_witness :
  decoded (PyStr "utf-8") [byte_of_Z 0x70; byte_of_Z 0x69]
    = Some {| body := map bval [byte_of_Z 0x70; byte_of_Z 0x69] |}
  /\ decoded (PyStr "ascii") [byte_of_Z 0x70; byte_of_Z 0x69]
    = Some {| body := map bval [byte_of_Z 0x70; byte_of_Z 0x69] |}.
Proof. apply decoded_ascii_agree. repeat constructor; vm_compute; reflexivity. Defined.

End OnMessageProps.
