(* ===== verification/Mock.v ===== *)
(** * The [__main__] block: [MockQueue] and the script's output

    Run as a script (amq.py, lines 56-77), the module builds a [MockQueue]
    (lines 59-64), whose [put] prints the event, and runs
    [main(MockQueue(), {...})] on the argument dict of lines 69-75 with
    [asyncio.run].  [MockQueue] is a second implementation of the
    [EventSink] interface: it has no state (the events put are kept as
    ghost state to state the interface's law), and its [put] prints the
    line [str(event)] ([put_out]).  [str(event)] of [{"body": text}] is
    [{'body': <repr(text)>}] ([event_line], with [StrRepr.str_repr]).

    The diagnostics of [on_message] and the line of [MockQueue.put] go to
    the one standard output of the process, [rs_stdout]: [on_message]
    appends its two lines and then what [put] printed, in the order of
    lines 32-34, so the script's output is that of [main]
    ([script_run]).  [parse_event_line] reads a printed event back (the
    [ast.literal_eval] of the line). *)

From S2P Require Import Prelude PyValue Codec BytesRepr StrRepr Sink Adapter.
Import PyValue Codec StrRepr Sink Adapter.

Module Mock.
#[local] Open Scope Z_scope.

Section WithDB.
Context `{UnicodeDB} `{CR : Codec.CodecRegistry}.

(** [str({"body": text})]: the dict's repr, braces around [repr] of the
    key, [": "] and [repr] of the value. *)
Definition event_line (e : event) : pystr :=
  codes "{" ++ str_repr (codes "body") ++ codes ": " ++ str_repr (body e) ++ codes "}".

(** [MockQueue] has no attribute; the events put are ghost state. *)
Record MockQueue := { mq_events : list event }.

(** [await queue.put(event)] on a [MockQueue]: [print(event)], which
    writes [event_line event] to standard output. *)
Definition mq_put (e : event) (q : MockQueue) : MockQueue :=
  {| mq_events := mq_events q ++ [e] |}.

#[export] Instance mock_sink : EventSink MockQueue := {
  put := mq_put;
  put_out e := [event_line e];
  history := mq_events
}.

#[export] Instance mock_laws : EventSinkLaws MockQueue.
Proof. constructor. reflexivity. Qed.

(** [MockQueue()]. *)
Definition mq0 : MockQueue := {| mq_events := [] |}.

(** [asyncio.run(main(MockQueue(), {...}))] (lines 66-77) on the inputs
    of the environment: the process's standard output is [rs_stdout]. *)
Definition script_run (ins : list input) : rstate MockQueue :=
  run (read_args mock_args) (main_start mock_args mq0) ins.

End WithDB.

(** Reading a printed event back. *)
Definition line_prefix : pystr := codes "{'body': ".

Definition parse_event_line (l : pystr) : option event :=
  if decide (take 9 l = line_prefix) then
    match parse_literal (drop 9 l) with
    | Some (t, [125]) => Some {| body := t |}
    | _ => None
    end
  else None.

End Mock.

Module MockProps.
Import Mock StrReprFacts Utf8 CodecProps AdapterProps.
#[local] Open Scope Z_scope.

Lemma event_line_eq `{UnicodeDB} e : event_line e = line_prefix ++ str_repr (body e) ++ [125].
Proof. reflexivity. Qed.

Lemma parse_not_event x l : x <> 123 -> parse_event_line (x :: l) = None.
Proof.
  intros Hx. unfold parse_event_line. rewrite decide_False; [done|].
  intros Ht. injection Ht. lia.
Qed.

(** The diagnostics of [on_message] begin with [[] and [M]: they never
    read as an event. *)
Lemma parse_diagnostics r :
  parse_event_line (codes ("[x] Received message " ++ r)) = None
  /\ parse_event_line (codes ("Message body is: " ++ r)) = None.
Proof. split; apply parse_not_event; discriminate. Qed.

(** The script's arguments have no [encoding]: the default applies. *)
Lemma mock_encoding : encoding (read_args mock_args) = PyStr "utf-8".
Proof. reflexivity. Qed.

(** [parse_event_line] inverts [event_line] on texts of code points. *)
Lemma event_line_parse `{UnicodeDB} e :
  Forall (fun c => 0 <= c <= 0x10FFFF) (body e) ->
  parse_event_line (event_line e) = Some e.
Proof.
  intros He. rewrite event_line_eq. unfold parse_event_line.
  change 9%nat with (length line_prefix).
  rewrite take_app_length, decide_True, drop_app_length by done.
  rewrite parse_literal_repr by done. by destruct e.
Qed.

Section Script.
Context `{UnicodeDB} `{CR : Codec.CodecRegistry}.

(** An event of a decoded body holds code points up to U+10FFFF. *)
Lemma decoded_range enc b e :
  decoded enc b = Some e -> Forall (fun c => 0 <= c <= 0x10FFFF) (body e).
Proof.
  unfold decoded. destruct (bytes_decode enc b) eqn:E; intros He; simplify_eq; simpl.
  by eapply bytes_decode_range.
Qed.

(** What the process prints for one delivery: the two diagnostics of
    [on_message], then the line of [MockQueue.put] when the body
    decodes. *)
Definition delivery_lines (enc : pyval) (m : message) : list pystr :=
  [codes ("[x] Received message " ++ msg_repr m);
   codes ("Message body is: " ++ BytesRepr.bytes_repr (msg_body m))]
  ++ option_list (event_line <$> decoded enc (msg_body m)).

(** A delivery on a [MockQueue]. *)
Lemma mock_deliver enc m (s : rstate MockQueue) :
  rs_stdout (deliver enc m s) = rs_stdout s ++ delivery_lines enc m
  /\ mq_events (rs_sink (deliver enc m s))
     = mq_events (rs_sink s) ++ option_list (decoded enc (msg_body m)).
Proof.
  unfold deliver, on_message, delivery_lines, decoded.
  destruct (bytes_decode enc (msg_body m)); simpl; by rewrite ?app_nil_r, <- ?app_assoc.
Qed.

(** Reading the lines of one delivery back gives its event, if any. *)
Lemma parse_delivery_lines enc m :
  omap parse_event_line (delivery_lines enc m) = option_list (decoded enc (msg_body m)).
Proof.
  unfold delivery_lines. rewrite omap_app, !omap_cons.
  rewrite (proj1 (parse_diagnostics (msg_repr m))).
  rewrite (proj2 (parse_diagnostics (BytesRepr.bytes_repr (msg_body m)))).
  destruct (decoded enc (msg_body m)) as [e|] eqn:E; [|done].
  change (option_list (event_line <$> Some e)) with [event_line e].
  rewrite omap_cons, event_line_parse by (eapply decoded_range, E). done.
Qed.

(** Deliveries to a live consumer print their lines in order. *)
Lemma run_delivery_lines p (s : rstate MockQueue) ms :
  rs_pc s = PcForever -> rs_consuming s = true -> conn_open s = true ->
  rs_stdout (run p s (map IDeliver ms))
  = rs_stdout s ++ concat (map (delivery_lines (encoding p)) ms).
Proof.
  revert s. induction ms as [|m ms IH]; intros s Hpc Hc Ho; simpl; [by rewrite app_nil_r|].
  rewrite step_deliver, Hc, Ho by done. simpl.
  destruct (deliver_ctrl (encoding p) m s) as (Hp' & Hc' & Hs' & _).
  rewrite IH; [|congruence|congruence|unfold conn_open in *; by rewrite Hc'].
  by rewrite (proj1 (mock_deliver (encoding p) m s)), <- app_assoc.
Qed.

(** The output reads back as the events pushed so far. *)
Definition events_printed (s : rstate MockQueue) : Prop :=
  omap parse_event_line (rs_stdout s) = mq_events (rs_sink s).

Lemma events_printed_step p (s : rstate MockQueue) i :
  events_printed s -> events_printed (step p s i).
Proof.
  unfold events_printed. intros Hi.
  destruct (step_data p s i) as [(m & _ & ->)|(Hk & _ & Ho)]; [|by rewrite Ho, Hk].
  destruct (mock_deliver (encoding p) m s) as [-> ->].
  by rewrite omap_app, Hi, parse_delivery_lines.
Qed.

End Script.

(** C26: what [MockQueue.put] prints reads back as the event it was
    given: [print(event)] loses nothing of a text of code points up to
    U+10FFFF, whatever the Unicode database prints as itself. *)
Theorem parse_event_line_roundtrip `{UnicodeDB} e :
  Forall (fun c => 0 <= c <= 0x10FFFF) (body e) ->
  parse_event_line (event_line e) = Some e.
Proof. apply event_line_parse. Qed.

(** C25: running the script on the spec's setup and then any sequence of
    deliveries prints, for each message in order, its two diagnostic
    lines and then, when the body is UTF-8, the line [{'body': ...}] of
    its event: the order of [print], [print] and [queue.put] in
    [on_message]. *)
Theorem script_output `{UnicodeDB} `{CR : Codec.CodecRegistry} ms :
  rs_stdout (script_run (setup ++ map IDeliver ms))
  = concat (map (delivery_lines (PyStr "utf-8")) ms).
Proof.
  unfold script_run. rewrite run_app, run_setup, run_delivery_lines; reflexivity.
Qed.

(** C24: whatever the broker and the task do, reading back the lines
    the script printed gives exactly the events pushed, in order: the
    diagnostics never read as an event and every event line reads as its
    event. *)
Theorem script_stdout_events `{UnicodeDB} `{CR : Codec.CodecRegistry} ins :
  omap parse_event_line (rs_stdout (script_run ins)) = mq_events (rs_sink (script_run ins)).
Proof.
  unfold script_run, run. assert (events_printed (main_start mock_args mq0)) as Hs0 by done.
  revert Hs0. generalize (main_start mock_args mq0) as s.
  induction ins as [|i ins IH]; intros s Hi; [done|]. apply IH, events_printed_step, Hi.
Qed.

(** Witness: a database that prints only ASCII as itself, on a text
    with an [e] acute, which it then writes as [\xe9]. *)
Definition ascii_db : UnicodeDB := fun c => (32 <=? c) && (c <? 127).

(** What CPython prints for [{"body": t}]: a plain text, a text with a
    single quote (printed between double quotes), a newline, and U+0085,
    which no Unicode database prints as itself. *)
Example event_line_examples `{UnicodeDB} :
  event_line {| body := codes "ping" |} = codes "{'body': 'ping'}"
  /\ event_line {| body := codes "it's" |} = codes "{'body': " ++ [34] ++ codes "it's" ++ [34; 125]
  /\ event_line {| body := [97; 10] |} = codes "{'body': 'a" ++ [92; 110; 39; 125]
  /\ (isprintable 0x85 = false ->
      event_line {| body := [0x85] |} = codes "{'body': '" ++ [92; 120; 56; 53; 39; 125]).
Proof. repeat split; [reflexivity..|]. intros Hp. unfold isprintable in Hp. vm_compute. by rewrite Hp. Qed.

Lemma parse_event_line_roundtrip_witness :
  parse_event_line (@event_line ascii_db {| body := [0x70; 0xE9] |}) = Some {| body := [0x70; 0xE9] |}.
Proof. apply (@parse_event_line_roundtrip ascii_db). repeat constructor; lia. Defined.

End MockProps.
