(* ===== verification/Contract.v ===== *)
(** * The adapter's contract, and [main] as a refinement of it

    The spec (sections 3 and 4.1) describes the Adapter Runner by its
    resources and its events, not by its awaits: a broker session that is
    acquired once and released once, a consumption registered on it, and
    a stream of events that only grows by the decoding of a delivered
    message while the consumption is live.  [Contract] is that
    description as a nondeterministic machine over [astate]; [abs] reads
    an [rstate] as an [astate] (the connection as the session, the
    consumer flag, whether [main] ended, the sink's history).  The
    refinement theorem: every state a run of [main] reaches is, read by
    [abs], a state the contract reaches, each concrete step being one
    contract step or none.  The contract allows the consumption to stop
    with the session still held (a lost connection) and the machine to
    stay there: it states safety only, the liveness gap is claim C12.

    The file also holds a type invariant of the sink (every queued event
    is text of Unicode scalar values) and the termination of the setup:
    after at most four completions, failures or cancellations of its
    awaits, [main] is waiting forever or finished. *)

From S2P Require Import Prelude PyValue Codec Sink Adapter.
Import PyValue Codec Sink Adapter.

Module Contract.

(** The broker session of the spec: not yet acquired, held, released. *)
Inductive session := SNone | SHeld | SReleased.

#[export] Instance session_eq_dec : EqDecision session.
Proof. solve_decision. Qed.

Record astate := {
  a_session : session;
  a_consuming : bool;
  a_ended : bool;
  a_events : list event
}.

Section Machine.
(** How a message body becomes an event ([decode] of section 4.2). *)
Variable dec : bytes -> option event.

Inductive astep : astate -> astate -> Prop :=
| AAcquire ev :
    astep {| a_session := SNone; a_consuming := false; a_ended := false; a_events := ev |}
          {| a_session := SHeld; a_consuming := false; a_ended := false; a_events := ev |}
| AFail ev :
    astep {| a_session := SNone; a_consuming := false; a_ended := false; a_events := ev |}
          {| a_session := SNone; a_consuming := false; a_ended := true; a_events := ev |}
| ARegister ev :
    astep {| a_session := SHeld; a_consuming := false; a_ended := false; a_events := ev |}
          {| a_session := SHeld; a_consuming := true; a_ended := false; a_events := ev |}
| APush b ev :
    astep {| a_session := SHeld; a_consuming := true; a_ended := false; a_events := ev |}
          {| a_session := SHeld; a_consuming := true; a_ended := false;
             a_events := ev ++ option_list (dec b) |}
| AStop ev :
    astep {| a_session := SHeld; a_consuming := true; a_ended := false; a_events := ev |}
          {| a_session := SHeld; a_consuming := false; a_ended := false; a_events := ev |}
| ARelease c ev :
    astep {| a_session := SHeld; a_consuming := c; a_ended := false; a_events := ev |}
          {| a_session := SReleased; a_consuming := false; a_ended := true; a_events := ev |}.

Definition ainit (ev : list event) : astate :=
  {| a_session := SNone; a_consuming := false; a_ended := false; a_events := ev |}.

(** The states of the contract, from a sink holding [ev0]. *)
Definition AReach (ev0 : list event) : astate -> Prop := rtc astep (ainit ev0).

End Machine.
End Contract.

Module Refinement.
Import Contract AdapterProps.

(** The session the spec sees in the connection object. *)
Definition session_of (c : conn) : session :=
  match c with NoConn => SNone | ConnOpen | ConnLost => SHeld | ConnClosed => SReleased end.

(** At most one step of the contract. *)
Definition astep_opt (dec : bytes -> option event) (a a' : astate) : Prop :=
  a' = a \/ astep dec a a'.

Section Sim.
Context {Q : Type} `{EventSinkLaws Q} `{CR : Codec.CodecRegistry}.

(** [main]'s state as the contract sees it. *)
Definition abs (s : rstate Q) : astate :=
  {| a_session := session_of (rs_conn s); a_consuming := rs_consuming s;
     a_ended := is_done (rs_pc s); a_events := history (rs_sink s) |}.

(** Only a consumer registered while waiting on an open connection. *)
Definition consumer_live (s : rstate Q) : Prop :=
  rs_consuming s = true -> rs_pc s = PcForever /\ rs_conn s = ConnOpen.

Lemma abs_deliver enc m (s : rstate Q) :
  consumer_live s -> rs_consuming s && conn_open s = true ->
  astep (decoded enc) (abs s) (abs (deliver enc m s)).
Proof.
  intros Hl Hd. apply andb_true_iff in Hd as [Hc _]. destruct (Hl Hc) as [Hpc Ho].
  unfold abs. destruct (deliver_ctrl enc m s) as (-> & -> & -> & _).
  destruct (deliver_data enc m s) as [-> _]. rewrite Hpc, Ho, Hc.
  apply (APush (decoded enc) (msg_body m)).
Qed.

Lemma abs_lose dec (s : rstate Q) :
  consumer_live s -> conn_open s = true -> astep_opt dec (abs s) (abs (lose s)).
Proof.
  unfold conn_open. intros Hl Ho. destruct (rs_conn s) eqn:Ec; try discriminate.
  unfold abs; simpl. rewrite Ec.
  destruct (rs_consuming s) eqn:Hc; [|by left].
  destruct (Hl Hc) as [-> _]. right. apply AStop.
Qed.

Lemma abs_connect dec (s : rstate Q) :
  rs_pc s = PcConnect -> rs_conn s = NoConn -> consumer_live s ->
  astep dec (abs s) (abs (connect_returned s)).
Proof.
  intros Hpc Hc Hl. destruct (rs_consuming s) eqn:Ecs; [destruct (Hl Ecs); congruence|].
  unfold abs; simpl. rewrite Hpc, Hc, Ecs. apply AAcquire.
Qed.

Lemma abs_fail dec o (s : rstate Q) :
  rs_pc s = PcConnect -> rs_conn s = NoConn -> consumer_live s ->
  astep dec (abs s) (abs (set_pc (PcDone o) s)).
Proof.
  intros Hpc Hc Hl. destruct (rs_consuming s) eqn:Ecs; [destruct (Hl Ecs); congruence|].
  unfold abs; simpl. rewrite Hpc, Hc, Ecs. apply AFail.
Qed.

Lemma abs_register dec (s : rstate Q) :
  rs_pc s = PcConsume -> session_of (rs_conn s) = SHeld -> consumer_live s ->
  astep_opt dec (abs s) (abs (consume_returned s)).
Proof.
  intros Hpc Hc Hl. destruct (rs_consuming s) eqn:Ecs; [destruct (Hl Ecs); congruence|].
  unfold abs; simpl. rewrite Hpc, Ecs.
  destruct (rs_conn s); try discriminate; [right; apply ARegister | by left].
Qed.

Lemma abs_exit dec o (s : rstate Q) :
  is_done (rs_pc s) = false -> session_of (rs_conn s) = SHeld ->
  astep dec (abs s) (abs (exit_with o s)).
Proof.
  intros Hd Hc. unfold abs; simpl. rewrite Hd, Hc. apply ARelease.
Qed.

Lemma held_session c : held c -> session_of c = SHeld.
Proof. by intros [-> | ->]. Qed.

(** Under the phase invariant, every step of [main] is one step of the
    contract or none. *)
Lemma abs_step p (s : rstate Q) i :
  phase_inv p s -> astep_opt (decoded (encoding p)) (abs s) (abs (step p s i)).
Proof.
  intros [Hph Hl]. change (consumer_live s) in Hl.
  unfold step. destruct (rs_pc s) eqn:Epc; [..|by left].
  all: destruct i as [| e | | m |].
  all: try (destruct (rs_consuming s && conn_open s) eqn:Ed;
            [right; by apply abs_deliver | by left]).
  all: try (destruct (conn_open s) eqn:Eo; [by apply abs_lose | by left]).
  all: try by left.
  all: destruct Hph as [_ Hc].
  all: first [ by left; unfold abs; simpl; rewrite Epc
             | by right; apply abs_connect
             | by right; apply abs_fail
             | by apply abs_register; [| apply held_session |]
             | by right; apply abs_exit; [rewrite Epc | apply held_session] ].
Qed.

End Sim.
End Refinement.

Module ContractProps.
Import Contract Refinement AdapterProps Utf8 CodecProps.

(** A well-typed event: its text holds Unicode scalar values only. *)
Definition wf_event (e : event) : Prop := Forall (fun c => is_scalar c = true) (body e).

(** A contract step keeps the events well-typed when decoding does. *)
Lemma astep_wf dec a a' :
  astep dec a a' -> (forall b e, dec b = Some e -> wf_event e) ->
  Forall wf_event (a_events a) -> Forall wf_event (a_events a').
Proof.
  intros Hs Hdec Ha. destruct Hs; simpl in *; try done.
  apply Forall_app. split; [done|]. destruct (dec b) eqn:E; simpl; [|done].
  constructor; [by eapply Hdec | done].
Qed.

(** How many awaits of the setup are still ahead. *)
Definition pending (c : pc) : nat :=
  match c with PcConnect => 4 | PcChannel => 3 | PcDeclare => 2 | PcConsume => 1 | _ => 0 end.

(** An input that resumes the pending await: it returns, raises or is
    cancelled. *)
Definition is_control (i : input) : bool :=
  match i with IReturn | IRaise _ | ICancel => true | IDeliver _ | ILost => false end.

Section Props.
Context {Q : Type} `{EventSinkLaws Q} `{CR : Codec.CodecRegistry}.

(** With a fast-path codec, a decoded body is a well-typed event. *)
Lemma decoded_wf enc b e : fast_path enc = true -> decoded enc b = Some e -> wf_event e.
Proof.
  intros Hf. unfold decoded, wf_event. destruct (bytes_decode enc b) eqn:E; intros He; simplify_eq.
  by eapply bytes_decode_scalar.
Qed.

(** Deliveries and connection loss never move [main] between awaits. *)
Lemma step_passive p (s : rstate Q) i :
  is_control i = false -> rs_pc (step p s i) = rs_pc s.
Proof.
  intros Hi. destruct i as [| | |m|]; try discriminate; unfold step;
    destruct (rs_pc s) eqn:E; try reflexivity.
  all: try (destruct (rs_consuming s && conn_open s);
            [by rewrite (proj1 (deliver_ctrl _ _ _)) | exact E]).
  all: by destruct (conn_open s).
Qed.

(** A resumed await ends a setup await or leaves [main] where the setup
    is over. *)
Lemma pending_step p (s : rstate Q) i :
  is_control i = true ->
  (pending (rs_pc (step p s i)) < pending (rs_pc s)
   \/ pending (rs_pc s) = 0 /\ pending (rs_pc (step p s i)) = 0)%nat.
Proof.
  intros Hi. unfold step. destruct (rs_pc s) eqn:E, i; try discriminate; simpl; rewrite ?E; simpl; lia.
Qed.

Lemma pending_zero c : pending c = 0%nat -> c = PcForever \/ is_done c = true.
Proof. destruct c; simpl; auto; lia. Qed.

(** C2: [main] refines the adapter's contract: every state a run of
    [main] reaches, read as the session, the consumer, whether it ended
    and the events, is a state of the contract, where the session is
    acquired once and released once, events are only pushed while the
    consumer is live and each is the decoding of one delivered body. *)
Theorem main_refines_contract args q0 (s : rstate Q) :
  Reachable args q0 s -> AReach (decoded (encoding (read_args args))) (history q0) (abs s).
Proof.
  induction 1 as [|s i Hr IH]; [apply rtc_refl|].
  destruct (abs_step (read_args args) s i (reachable_phase_inv _ _ _ Hr)) as [->|Hst];
    [done | by eapply rtc_r].
Qed.

(** C10: with an encoding argument that takes CPython's fast path
    (UTF-8, ASCII or Latin-1 under any of their names, the default
    included), the queue only ever holds well-typed events: if it started
    with texts of Unicode scalar values, every event in it, in every
    state of a run, is such a text.  (Another codec of the registry, such
    as [unicode_escape], may push lone surrogates.) *)
Theorem sink_events_well_typed args q0 (s : rstate Q) :
  fast_path (encoding (read_args args)) = true ->
  Reachable args q0 s -> Forall wf_event (history q0) ->
  Forall wf_event (history (rs_sink s)).
Proof.
  intros Hf Hr Hq0. induction Hr as [|s i Hr IH]; [done|].
  destruct (abs_step (read_args args) s i (reachable_phase_inv _ _ _ Hr)) as [Heq|Hst].
  - change (Forall wf_event (a_events (abs (step (read_args args) s i)))). by rewrite Heq.
  - apply (astep_wf _ _ _ Hst); [intros b e; by apply decoded_wf | exact IH].
Qed.

(** C14: the setup terminates: from any state, once as many of its
    awaits as remain have returned, raised or been cancelled, whatever
    deliveries and connection losses come between, [main] is waiting on
    [asyncio.Future()] or has finished. *)
Theorem setup_terminates p (s : rstate Q) ins :
  (pending (rs_pc s) <= count_if is_control ins)%nat ->
  rs_pc (run p s ins) = PcForever \/ is_done (rs_pc (run p s ins)) = true.
Proof.
  revert s. induction ins as [|i ins IH]; intros s Hn; simpl.
  - apply pending_zero. unfold count_if in Hn. simpl in Hn. lia.
  - apply IH. rewrite count_if_cons in Hn. destruct (is_control i) eqn:Ei.
    + simpl in Hn. destruct (pending_step p s i Ei); lia.
    + simpl in Hn. by rewrite step_passive.
Qed.

End Props.

#[local] Existing Instance builtin_only.

(** Witnesses: the theorems on the script's arguments. *)
Lemma main_refines_contract_witness :
  AReach (decoded (encoding (read_args mock_args))) (history aq0) (abs s_wait).
Proof. apply (main_refines_contract mock_args aq0). apply reachable_run, reach_start. Defined.

Lemma sink_events_well_typed_witness : Forall wf_event (history (rs_sink s_wait)).
Proof.
  apply (sink_events_well_typed mock_args aq0);
    [vm_compute; reflexivity | apply reachable_run, reach_start | constructor].
Defined.

Lemma setup_terminates_witness :
  rs_pc (run (read_args mock_args) (main_start mock_args aq0) (IDeliver ping :: setup)) = PcForever
  \/ is_done (rs_pc (run (read_args mock_args) (main_start mock_args aq0) (IDeliver ping :: setup)))
     = true.
Proof. apply setup_terminates. vm_compute. lia. Defined.

End ContractProps.
