(* ===== verification/Broker.v ===== *)
(** * The broker behind [consume(on_message, no_ack=True)], and the system

    [main] declares the queue [channel_name] (amq.py, line 51) and
    consumes from it with [no_ack=True] (line 52).  What happens to a
    message between its publication and [on_message] is the broker's
    business, modelled here after AMQP 0-9-1 as RabbitMQ implements it:

    - [bqueue] is the queue publishers send to ([target]): the messages
      ready, the messages delivered and not yet acknowledged, whether
      [main] declared that queue, and the consumer registered on it with
      its [no_ack] flag;
    - [basic.deliver] ([b_deliver]) hands the head of the ready list to the
      consumer; with [no_ack] the message counts as acknowledged when it is
      sent, otherwise it waits among the unacknowledged;
    - when the channel closes (the [async with] exit or a connection loss)
      the consumer is cancelled and the unacknowledged messages go back to
      the head of the queue ([b_close]);
    - [declare_queue(None)] declares a fresh server-named queue, which is
      not [target].

    [sys] composes [main] and the broker: [sys_step] is a publication, a
    delivery of the head of the queue to [on_message], or an input of
    [main], after which the broker reacts to what [main] did
    ([b_sync]: the consumer is registered when [consume] returned, and
    cancelled with its channel).  Registering the consumer when
    [consume] returns rather than when the broker answers loses no
    behaviour: [main] does nothing observable between the two. *)

From S2P Require Import Prelude PyValue Codec Sink Adapter.
Import PyValue Codec Sink Adapter.

Module Broker.

Record bqueue := {
  b_ready : list message;
  b_unacked : list message;
  b_declared : bool;
  b_consumer : option bool
}.

(** [basic.publish] to the queue. *)
Definition b_publish (m : message) (b : bqueue) : bqueue :=
  {| b_ready := b_ready b ++ [m]; b_unacked := b_unacked b;
     b_declared := b_declared b; b_consumer := b_consumer b |}.

(** [queue.declare]: only the queue named [target] is the one published to. *)
Definition b_declare (target : string) (name : pyval) (b : bqueue) : bqueue :=
  {| b_ready := b_ready b; b_unacked := b_unacked b;
     b_declared := b_declared b || bool_decide (name = PyStr target);
     b_consumer := b_consumer b |}.

(** [basic.consume] on the declared queue, with its [no_ack] flag. *)
Definition b_consume (no_ack : bool) (b : bqueue) : bqueue :=
  {| b_ready := b_ready b; b_unacked := b_unacked b; b_declared := b_declared b;
     b_consumer := if b_declared b then Some no_ack else b_consumer b |}.

(** The channel closes: the consumer is cancelled, what it did not
    acknowledge is requeued in front, in its order. *)
Definition b_close (b : bqueue) : bqueue :=
  {| b_ready := b_unacked b ++ b_ready b; b_unacked := []; b_declared := b_declared b;
     b_consumer := None |}.

(** [basic.deliver] of the head of the queue to the consumer. *)
Definition b_deliver (b : bqueue) : option (message * bqueue) :=
  match b_consumer b, b_ready b with
  | Some na, m :: rest =>
    Some (m, {| b_ready := rest; b_unacked := if na then b_unacked b else b_unacked b ++ [m];
                b_declared := b_declared b; b_consumer := b_consumer b |})
  | _, _ => None
  end.

(** The broker's side of a declaration among the calls [main] made. *)
Definition b_on_call (target : string) (b : bqueue) (c : call) : bqueue :=
  match c with
  | CallDeclare name => b_declare target name b
  | _ => b
  end.

(** The [no_ack] flag of the consume call made, if any. *)
Fixpoint consume_flag (cs : list call) : option bool :=
  match cs with
  | [] => None
  | CallConsume na :: _ => Some na
  | _ :: cs' => consume_flag cs'
  end.

Section System.
Context {Q : Type} `{EventSink Q} `{CR : Codec.CodecRegistry}.

Record sys := {
  sy_main : rstate Q;
  sy_broker : bqueue;
  sy_published : list message   (* ghost: every message published *)
}.

(** What the environment does to [main] itself: the pending await
    returns, raises or is cancelled, or the connection drops. *)
Inductive control := CReturn | CRaise (e : exn) | CCancel | CLost.

Definition control_input (c : control) : input :=
  match c with CReturn => IReturn | CRaise e => IRaise e | CCancel => ICancel | CLost => ILost end.

(** A publication, a delivery by the broker, or a control input. *)
Inductive sinput :=
| SPublish (m : message)
| SDeliver
| SControl (c : control).

(** After an input of [main] from [s] to [s']: the broker sees the new
    declarations; the consumer is registered when [consume] returned and
    cancelled, with its channel, when [main] stops consuming. *)
Definition b_sync (target : string) (s s' : rstate Q) (b : bqueue) : bqueue :=
  let b1 := fold_left (b_on_call target) (drop (length (rs_calls s)) (rs_calls s')) b in
  if negb (rs_consuming s) && rs_consuming s' then
    match consume_flag (rs_calls s') with Some na => b_consume na b1 | None => b1 end
  else if rs_consuming s && negb (rs_consuming s') then b_close b1
  else b1.

Definition sys_step (p : Params) (target : string) (st : sys) (i : sinput) : sys :=
  match i with
  | SPublish m =>
    {| sy_main := sy_main st; sy_broker := b_publish m (sy_broker st);
       sy_published := sy_published st ++ [m] |}
  | SDeliver =>
    match b_deliver (sy_broker st) with
    | Some (m, b') =>
      {| sy_main := step p (sy_main st) (IDeliver m); sy_broker := b';
         sy_published := sy_published st |}
    | None => st
    end
  | SControl c =>
    let s' := step p (sy_main st) (control_input c) in
    {| sy_main := s'; sy_broker := b_sync target (sy_main st) s' (sy_broker st);
       sy_published := sy_published st |}
  end.

(** The queue as [main] starts: the messages already waiting in it. *)
Definition b_init (ready : list message) : bqueue :=
  {| b_ready := ready; b_unacked := []; b_declared := false; b_consumer := None |}.

Definition sys_start (args : gmap string pyval) (q0 : Q) (ready : list message) : sys :=
  {| sy_main := main_start args q0; sy_broker := b_init ready; sy_published := ready |}.

Inductive SReach (args : gmap string pyval) (target : string) (q0 : Q) (ready : list message)
    : sys -> Prop :=
| sreach_start : SReach args target q0 ready (sys_start args q0 ready)
| sreach_step st i :
    SReach args target q0 ready st -> SReach args target q0 ready (sys_step (read_args args) target st i).

End System.

Arguments sys Q : clear implicits.

End Broker.

Module BrokerProps.
Import Broker AdapterProps.

(** The declarations change nothing but the declared flag. *)
Lemma fold_on_call_fields target cs b :
  b_ready (fold_left (b_on_call target) cs b) = b_ready b
  /\ b_unacked (fold_left (b_on_call target) cs b) = b_unacked b
  /\ b_consumer (fold_left (b_on_call target) cs b) = b_consumer b.
Proof.
  revert b. induction cs as [|c cs IH]; intros b; [done|]. simpl.
  destruct (IH (b_on_call target b c)) as (-> & -> & ->). by destruct c.
Qed.

(** The queue is declared only by a declaration naming [target]. *)
Lemma fold_on_call_declared target cs b :
  (forall n, CallDeclare n ∈ cs -> n <> PyStr target) ->
  b_declared (fold_left (b_on_call target) cs b) = b_declared b.
Proof.
  revert b. induction cs as [|c cs IH]; intros b Hn; [done|]. simpl.
  rewrite IH by (intros n Hin; apply Hn; by right).
  destruct c as [| |n| |]; try done. simpl.
  rewrite bool_decide_eq_false_2; [apply orb_false_r | apply Hn; left].
Qed.

Lemma fold_on_call_declared_true target cs b :
  b_declared (fold_left (b_on_call target) cs b) = true ->
  b_declared b = true \/ CallDeclare (PyStr target) ∈ cs.
Proof.
  revert b. induction cs as [|c cs IH]; intros b Hd; [by left|]. simpl in Hd.
  destruct (IH _ Hd) as [Hb|Hin]; [|right; by right].
  destruct c as [| |n| |]; try (by left). simpl in Hb.
  apply orb_true_iff in Hb as [Hb|Hb]; [by left|].
  apply bool_decide_eq_true in Hb as ->. right. left.
Qed.

Lemma fold_on_call_declared_mono target cs b :
  b_declared b = true -> b_declared (fold_left (b_on_call target) cs b) = true.
Proof.
  revert b. induction cs as [|c cs IH]; intros b Hb; [done|]. simpl. apply IH.
  destruct c; simpl; by rewrite ?Hb.
Qed.

Lemma consume_flag_app l1 l2 :
  consume_flag (l1 ++ l2)
  = match consume_flag l1 with Some x => Some x | None => consume_flag l2 end.
Proof. induction l1 as [|c l1 IH]; [done|]. destruct c; simpl; auto. Qed.

Lemma consume_flag_protocol p k : consume_flag (take k (protocol p)) <> Some false.
Proof. destruct k as [|[|[|[|[|k]]]]]; discriminate. Qed.

Lemma declare_protocol p k n : CallDeclare n ∈ take k (protocol p) -> n = channel_name p.
Proof.
  intros Hin. apply elem_of_take in Hin as (i & Hi & _).
  destruct i as [|[|[|[|[|i]]]]]; simpl in Hi; simplify_eq; done.
Qed.

Section Props.
Context {Q : Type} `{EventSinkLaws Q} `{CR : Codec.CodecRegistry}.

(** The only consume call [main] makes passes [no_ack=True]. *)
Lemma phase_consume_flag p (s : rstate Q) :
  phase_inv p s -> consume_flag (rs_calls s) <> Some false.
Proof.
  intros [Hph _]. destruct (rs_pc s);
    try (destruct Hph as [-> _]; apply consume_flag_protocol).
  destruct Hph as [[-> _]|(k & _ & -> & _)]; [apply consume_flag_protocol|].
  rewrite consume_flag_app. pose proof (consume_flag_protocol p k).
  destruct (consume_flag (take k (protocol p))); [done|]. discriminate.
Qed.

(** The only queue [main] declares is [channel_name]. *)
Lemma phase_declares p (s : rstate Q) n :
  phase_inv p s -> CallDeclare n ∈ rs_calls s -> n = channel_name p.
Proof.
  intros [Hph _]. destruct (rs_pc s);
    try (destruct Hph as [-> _]; apply declare_protocol).
  destruct Hph as [[-> _]|(k & _ & -> & _)]; [apply declare_protocol|].
  rewrite elem_of_app, list_elem_of_singleton. intros [Hin|Hin]; [|discriminate].
  by eapply declare_protocol.
Qed.

(** A run of the system is a run of [main]. *)
Lemma sreach_main args target q0 ready (st : sys Q) :
  SReach args target q0 ready st -> Reachable args q0 (sy_main st).
Proof.
  induction 1 as [|st i _ IH]; [apply reach_start|].
  destruct i as [m| |c]; simpl; [done| |by constructor].
  destruct (b_deliver (sy_broker st)) as [[m b']|]; simpl; [by constructor | done].
Qed.

(** The broker and [main] agree: nothing is waiting for an
    acknowledgement, every published body was delivered to [on_message]
    or is still queued, in publication order, a registered consumer is
    [main]'s live one with [no_ack], and only the queue named by
    [channel_name] is ever consumed. *)
Definition consumer_ok (st : sys Q) : Prop :=
  b_consumer (sy_broker st) = None
  \/ (b_consumer (sy_broker st) = Some true /\ rs_consuming (sy_main st) = true
      /\ conn_open (sy_main st) = true).

Definition sys_inv (target : string) (p : Params) (st : sys Q) : Prop :=
  b_unacked (sy_broker st) = []
  /\ map msg_body (sy_published st)
     = rs_delivered (sy_main st) ++ map msg_body (b_ready (sy_broker st))
  /\ consumer_ok st
  /\ (b_declared (sy_broker st) = true -> channel_name p = PyStr target)
  /\ (b_consumer (sy_broker st) <> None -> b_declared (sy_broker st) = true).

Lemma inv_publish target p (st : sys Q) m :
  sys_inv target p st -> sys_inv target p (sys_step p target st (SPublish m)).
Proof.
  intros (Hu & Hc & Hok & Hd & Hcd). repeat split; simpl; try done.
  by rewrite !map_app, Hc, <- app_assoc.
Qed.

Lemma inv_deliver target p (st : sys Q) :
  phase_inv p (sy_main st) -> sys_inv target p st ->
  sys_inv target p (sys_step p target st SDeliver).
Proof.
  intros [_ Hl] Hinv. simpl. unfold b_deliver.
  destruct (b_consumer (sy_broker st)) as [na|] eqn:Ec; [|exact Hinv].
  destruct (b_ready (sy_broker st)) as [|m rest] eqn:Er; [exact Hinv|].
  destruct Hinv as (Hu & Hc & Hok & Hd & Hcd).
  destruct Hok as [Hn|(Hna & Hcs & Ho)]; [congruence|].
  rewrite Ec in Hna. injection Hna as ->. destruct (Hl Hcs) as [Hpc _].
  rewrite step_deliver, Hcs, Ho by done. simpl.
  destruct (deliver_ctrl (encoding p) m (sy_main st)) as (_ & Hconn & Hcons & _).
  destruct (deliver_data (encoding p) m (sy_main st)) as [_ Hdel].
  unfold sys_inv, consumer_ok, conn_open in *; simpl. rewrite Hdel, Hconn, Hcons.
  repeat split; try done.
  - rewrite Hc, Er. simpl. by rewrite <- app_assoc.
  - right. auto.
  - intros _. apply Hcd. congruence.
Qed.

Lemma inv_control target p (st : sys Q) c :
  phase_inv p (sy_main st) -> sys_inv target p st ->
  sys_inv target p (sys_step p target st (SControl c)).
Proof.
  intros Hph (Hu & Hc & Hok & Hd & Hcd). simpl.
  set (s := sy_main st) in *. set (s' := step p s (control_input c)).
  assert (phase_inv p s') as Hph' by (apply phase_inv_step, Hph).
  assert (rs_delivered s' = rs_delivered s) as Hdel.
  { destruct (step_data p s (control_input c)) as [(m & Hm & _)|(_ & Hm & _)];
      [by destruct c | exact Hm]. }
  unfold b_sync. fold s'.
  set (cs := drop (length (rs_calls s)) (rs_calls s')).
  set (b1 := fold_left (b_on_call target) cs (sy_broker st)).
  destruct (fold_on_call_fields target cs (sy_broker st)) as (Hr1 & Hu1 & Hc1). fold b1 in Hr1, Hu1, Hc1.
  assert (b_declared b1 = true -> channel_name p = PyStr target) as Hd1.
  { intros Hb. destruct (fold_on_call_declared_true target cs _ Hb) as [Hb0|Hin]; [by apply Hd|].
    symmetry. apply (phase_declares p s'); [done | by apply (subseteq_drop (length (rs_calls s)) (rs_calls s'))]. }
  assert (b_declared (sy_broker st) = true -> b_declared b1 = true) as Hmono
    by apply fold_on_call_declared_mono.
  destruct Hph' as [_ Hl'].
  assert (rs_consuming s = false -> b_consumer (sy_broker st) = None) as Hnone
    by (intros Ecs; destruct Hok as [?|(_ & Hcs & _)]; [done | unfold s in Ecs; congruence]).
  assert (rs_consuming s' = true -> conn_open s' = true) as Ho'
    by (intros Hcs'; unfold conn_open; by destruct (Hl' Hcs') as [_ ->]).
  unfold sys_inv, consumer_ok. simpl. fold s'. rewrite Hdel.
  destruct (rs_consuming s) eqn:Ecs, (rs_consuming s') eqn:Ecs'; simpl.
  - rewrite Hr1, Hu1, Hc1. repeat split; auto.
    destruct Hok as [?|(? & _ & _)]; [by left | right; auto].
  - repeat split; simpl; rewrite ?Hu1, ?Hr1; auto. by rewrite Hu.
  - destruct (consume_flag (rs_calls s')) as [na|] eqn:Ef.
    + assert (na = true) as ->.
      { destruct na; [done|]. exfalso.
        apply (phase_consume_flag p s'); [apply phase_inv_step, Hph | exact Ef]. }
      simpl. rewrite Hr1, Hu1. repeat split; auto.
      * destruct (b_declared b1); [right; auto | left; rewrite Hc1; by apply Hnone].
      * destruct (b_declared b1); [done|]. by rewrite Hc1, Hnone.
    + rewrite Hr1, Hu1, Hc1, Hnone by done. repeat split; auto; by left.
  - rewrite Hr1, Hu1, Hc1, Hnone by done. repeat split; auto; by left.
Qed.

(** The invariant holds in every state of the system. *)
Lemma sreach_inv args target q0 ready (st : sys Q) :
  SReach args target q0 ready st -> sys_inv target (read_args args) st.
Proof.
  induction 1 as [|st i Hr IH].
  - repeat split; try done. by left.
  - pose proof (reachable_phase_inv _ _ _ (sreach_main _ _ _ _ _ Hr)) as Hph.
    destruct i; [by apply inv_publish | by apply inv_deliver | by apply inv_control].
Qed.

Lemma reach_history args q0 (s : rstate Q) :
  Reachable args q0 s ->
  history (rs_sink s) = history q0 ++ omap (decoded (encoding (read_args args))) (rs_delivered s).
Proof. induction 1; [simpl; by rewrite app_nil_r | by apply sink_inv_step]. Qed.

(** Publications only ever add messages. *)
Lemma sys_step_published p target (st : sys Q) i :
  exists d, sy_published (sys_step p target st i) = sy_published st ++ d.
Proof.
  destruct i as [m| |c]; simpl; [by eexists| |exists []; by rewrite app_nil_r].
  destruct (b_deliver (sy_broker st)) as [[m b']|]; exists []; by rewrite app_nil_r.
Qed.

(** A control input never delivers. *)
Lemma control_delivered p (s : rstate Q) c :
  rs_delivered (step p s (control_input c)) = rs_delivered s.
Proof.
  destruct (step_data p s (control_input c)) as [(m & Hm & _)|(_ & Hm & _)];
    [by destruct c | exact Hm].
Qed.

(** A connection that is gone does not come back. *)
Lemma step_conn_gone p (s : rstate Q) i :
  phase_inv p s -> rs_conn s = ConnLost \/ rs_conn s = ConnClosed ->
  rs_conn (step p s i) = ConnLost \/ rs_conn (step p s i) = ConnClosed.
Proof.
  intros [Hph _] Hc.
  assert (conn_open s = false) as Ho by (unfold conn_open; by destruct Hc as [-> | ->]).
  unfold step. destruct (rs_pc s) eqn:E; [| | | | | done]; destruct i; rewrite ?Ho, ?andb_false_r;
    simpl; auto.
  all: destruct Hph as [_ Hn]; exfalso; destruct Hc; congruence.
Qed.

End Props.
End BrokerProps.

Module SystemProps.
Import Broker BrokerProps AdapterProps.

Section Props.
Context {Q : Type} `{EventSinkLaws Q} `{CR : Codec.CodecRegistry}.

Lemma sreach_fold args target q0 ready (st : sys Q) ins :
  SReach args target q0 ready st ->
  SReach args target q0 ready (fold_left (sys_step (read_args args) target) ins st).
Proof.
  revert st. induction ins as [|i ins IH]; intros st Hr; [done|]. apply IH. by constructor.
Qed.

Definition gone (s : rstate Q) : Prop := rs_conn s = ConnLost \/ rs_conn s = ConnClosed.

Lemma sys_gone_step args target q0 ready (st : sys Q) i :
  SReach args target q0 ready st -> gone (sy_main st) ->
  rs_delivered (sy_main (sys_step (read_args args) target st i)) = rs_delivered (sy_main st)
  /\ gone (sy_main (sys_step (read_args args) target st i)).
Proof.
  intros Hr Hg. pose proof (reachable_phase_inv _ _ _ (sreach_main _ _ _ _ _ Hr)) as Hph.
  destruct i as [m| |c]; simpl; [done| |].
  - destruct (sreach_inv _ _ _ _ _ Hr) as (_ & _ & [Hn|(_ & _ & Ho)] & _).
    + unfold b_deliver. by rewrite Hn.
    + exfalso. unfold conn_open in Ho. destruct Hg as [Hg|Hg]; by rewrite Hg in Ho.
  - split; [apply control_delivered | by apply step_conn_gone].
Qed.

(** C6: the broker delivers every message at most once and in
    publication order: with [no_ack=True] nothing ever waits for an
    acknowledgement, and the bodies published are exactly the bodies
    handed to [on_message], in order, followed by the bodies still
    queued; no message is redelivered, not even after the channel
    closes. *)
Theorem sys_at_most_once args target q0 ready (st : sys Q) :
  SReach args target q0 ready st ->
  b_unacked (sy_broker st) = []
  /\ map msg_body (sy_published st)
     = rs_delivered (sy_main st) ++ map msg_body (b_ready (sy_broker st)).
Proof. intros Hr. by destruct (sreach_inv _ _ _ _ _ Hr) as (Hu & Hc & _). Qed.

(** C7: end to end, the events in the host's queue are the decodings
    of the oldest published messages, in publication order: for some
    [k], the sink holds, after what it held, the successful decodings of
    the first [k] messages published. *)
Theorem sys_events_published_prefix args target q0 ready (st : sys Q) :
  SReach args target q0 ready st ->
  exists k, history (rs_sink (sy_main st))
    = history q0 ++ omap (decoded (encoding (read_args args))) (take k (map msg_body (sy_published st))).
Proof.
  intros Hr. destruct (sreach_inv _ _ _ _ _ Hr) as (_ & Hc & _).
  exists (length (rs_delivered (sy_main st))).
  rewrite Hc, take_app_length. apply reach_history, (sreach_main _ _ _ _ _ Hr).
Qed.

(** C20: without a [channel] argument nothing published to the queue is
    ever consumed: [declare_queue(None)] makes a fresh server-named queue,
    the consumer sits on it, and every message stays queued. *)
Theorem sys_missing_channel_starves args target q0 ready (st : sys Q) :
  args !! "channel" = None -> SReach args target q0 ready st ->
  rs_delivered (sy_main st) = [] /\ map msg_body (b_ready (sy_broker st)) = map msg_body (sy_published st).
Proof.
  intros Hch Hr. enough (rs_delivered (sy_main st) = []) as Hd.
  { split; [done|]. destruct (sreach_inv _ _ _ _ _ Hr) as (_ & Hc & _). by rewrite Hc, Hd. }
  induction Hr as [|st i Hr IH]; [done|].
  destruct (sreach_inv _ _ _ _ _ Hr) as (_ & _ & Hok & Hdecl & Hcd).
  assert (b_consumer (sy_broker st) = None) as Hn.
  { destruct (b_consumer (sy_broker st)) eqn:Ec; [|done].
    assert (channel_name (read_args args) = PyNone) as Hnone by (simpl; unfold dict_get; by rewrite Hch).
    rewrite Hdecl in Hnone; [discriminate|]. apply Hcd. discriminate. }
  destruct i as [m| |c]; simpl; [done | unfold b_deliver; by rewrite Hn | by rewrite control_delivered].
Qed.

(** C13: after the connection is lost, no message is ever handed to
    [on_message] again, whatever happens next: every message published
    from then on stays in the queue ([main] waits forever, claim C12, or
    is cancelled). *)
Theorem sys_lost_connection_starves args target q0 ready (st : sys Q) ins :
  SReach args target q0 ready st -> rs_conn (sy_main st) = ConnLost ->
  let st' := fold_left (sys_step (read_args args) target) ins st in
  rs_delivered (sy_main st') = rs_delivered (sy_main st)
  /\ map msg_body (b_ready (sy_broker st'))
     = map msg_body (b_ready (sy_broker st))
       ++ map msg_body (drop (length (sy_published st)) (sy_published st')).
Proof.
  intros Hr Hl st'.
  assert (SReach args target q0 ready st' /\ rs_delivered (sy_main st') = rs_delivered (sy_main st)
          /\ exists d, sy_published st' = sy_published st ++ d) as (Hr' & Hd & D & HD).
  { unfold st'. assert (gone (sy_main st)) as Hg by (by left). clear st' Hl.
    revert st Hr Hg. induction ins as [|i ins IH]; intros st Hr Hg; simpl.
    - split; [done|]. split; [done|]. exists []. by rewrite app_nil_r.
    - destruct (sys_gone_step _ _ _ _ _ i Hr Hg) as [Hd1 Hg1].
      destruct (sys_step_published (read_args args) target st i) as [d1 Hd1'].
      destruct (IH _ (sreach_step _ _ _ _ _ i Hr) Hg1) as (Hr2 & Hd2 & d2 & Hp2).
      split; [done|]. split; [by rewrite Hd2, Hd1|]. exists (d1 ++ d2). by rewrite Hp2, Hd1', app_assoc. }
  split; [done|].
  destruct (sreach_inv _ _ _ _ _ Hr) as (_ & Hc & _). destruct (sreach_inv _ _ _ _ _ Hr') as (_ & Hc' & _).
  rewrite HD, drop_app_length. rewrite HD, map_app, Hc, Hd, <- !app_assoc in Hc'.
  by apply app_inv_head in Hc'.
Qed.

End Props.

#[local] Existing Instance Codec.builtin_only.

(** Witnesses: the script's arguments, the queue [hello] holding [b"ping"]
    and a body that is not UTF-8, [main]'s setup, two deliveries. *)
Definition sys_setup : list sinput := [SControl CReturn; SControl CReturn; SControl CReturn; SControl CReturn].

Definition sys_wait : sys AsyncioQueue :=
  fold_left (sys_step (read_args mock_args) "hello") (sys_setup ++ [SDeliver; SDeliver])
            (sys_start mock_args aq0 [ping; bad]).

(** The spec's second scenario end to end, evaluated: with [b"ping"]
    and a body that is not UTF-8 queued, after the setup and two
    deliveries the host's queue holds the one event of [b"ping"], one
    [UnicodeDecodeError] was raised in the callback, and the broker's
    queue is empty: the undecodable message was consumed and is lost. *)
Example sys_undecodable_dropped :
  aq_items (rs_sink (sy_main sys_wait)) = [{| body := [112; 105; 110; 103]%Z |}]
  /\ rs_cb_errors (sy_main sys_wait) = [UnicodeDecodeError "utf-8" 0 1 "invalid start byte"]
  /\ b_ready (sy_broker sys_wait) = [] /\ b_unacked (sy_broker sys_wait) = [].
Proof. vm_compute. repeat split; reflexivity. Qed.

Lemma sys_at_most_once_witness :
  b_unacked (sy_broker sys_wait) = []
  /\ map msg_body (sy_published sys_wait)
     = rs_delivered (sy_main sys_wait) ++ map msg_body (b_ready (sy_broker sys_wait)).
Proof. apply (sys_at_most_once mock_args "hello" aq0 [ping; bad]). apply sreach_fold, sreach_start. Defined.

Lemma sys_events_published_prefix_witness :
  exists k, history (rs_sink (sy_main sys_wait))
    = history aq0 ++ omap (decoded (encoding (read_args mock_args)))
                          (take k (map msg_body (sy_published sys_wait))).
Proof.
  apply (sys_events_published_prefix mock_args "hello" aq0 [ping; bad]). apply sreach_fold, sreach_start.
Defined.

Lemma sys_missing_channel_starves_witness :
  let st := fold_left (sys_step (read_args (delete "channel" mock_args)) "hello")
                      (sys_setup ++ [SDeliver]) (sys_start (delete "channel" mock_args) aq0 [ping]) in
  rs_delivered (sy_main st) = [] /\ map msg_body (b_ready (sy_broker st)) = map msg_body (sy_published st).
Proof.
  apply (sys_missing_channel_starves (delete "channel" mock_args) "hello" aq0 [ping]);
    [vm_compute; reflexivity | apply sreach_fold, sreach_start].
Defined.

Definition sys_lost : sys AsyncioQueue :=
  fold_left (sys_step (read_args mock_args) "hello") (sys_setup ++ [SControl CLost])
            (sys_start mock_args aq0 [ping; bad]).

Lemma sys_lost_connection_starves_witness :
  let st' := fold_left (sys_step (read_args mock_args) "hello") [SPublish ping; SDeliver] sys_lost in
  rs_delivered (sy_main st') = rs_delivered (sy_main sys_lost)
  /\ map msg_body (b_ready (sy_broker st'))
     = map msg_body (b_ready (sy_broker sys_lost))
       ++ map msg_body (drop (length (sy_published sys_lost)) (sy_published st')).
Proof.
  apply (sys_lost_connection_starves mock_args "hello" aq0 [ping; bad]);
    [apply sreach_fold, sreach_start | vm_compute; reflexivity].
Defined.

End SystemProps.
